(** * mrpt: the Python binding of the MRPT index (cpp/mrptmodule.cpp)

    A shallow embedding of the extension module and of the part of the
    engine contract (Mrpt.h) that the binding calls into, followed by the
    properties of the vote filter, the result conversion, the exact and the
    approximate query, construction and persistence. *)

From stdpp Require Import base numbers list sorting strings gmap.
From Stdlib Require Import ZArith QArith Lia.

Local Open Scope Z_scope.

(** ** Machine integers

    The binding works on C [int]s.  They are modelled as [Z]; the one place
    where the module does arithmetic on them is the vote counter, whose
    increment is written with its wrap-around. *)

Definition INT_MAX : Z := 2 ^ 31 - 1.
Definition INT_MIN : Z := - 2 ^ 31.

Definition wrap32 (z : Z) : Z := (z + 2 ^ 31) mod 2 ^ 32 - 2 ^ 31.

Definition is_int (z : Z) : Prop := INT_MIN <= z <= INT_MAX.

(** ** Outcomes of a call

    A method of the module returns a value, raises an exception, or runs
    into behaviour the language leaves undefined (an access outside a
    buffer).  [PyExc_IOError] and [PyExc_ValueError] are the exceptions that
    the module sets itself; the others are the error kinds of the engine. *)

Inductive PyExc : Type :=
  | PyExc_IOError
  | PyExc_ValueError
  | InvalidParameter
  | DimensionMismatch
  | NotBuilt
  | FormatError
  | CorruptData.

Inductive outcome (A : Type) : Type :=
  | Ret (a : A)
  | Raise (e : PyExc)
  | Undef.

Arguments Ret {A} a.
Arguments Raise {A} e.
Arguments Undef {A}.

#[global] Instance outcome_ret : MRet outcome := fun A a => Ret a.

#[global] Instance outcome_bind : MBind outcome := fun A B f m =>
  match m with
  | Ret a => f a
  | Raise e => Raise e
  | Undef => Undef
  end.

Definition returns {A} (m : outcome A) : bool :=
  match m with Ret _ => true | _ => false end.

(** ** NumPy arrays *)

Inductive npy_type : Type := PyArray_INT | PyArray_FLOAT.

Record PyArrayObject (T : Type) : Type := mkArray {
  descr : npy_type;
  dimensions : list nat;
  data : list T
}.

Arguments mkArray {T} _ _ _.
Arguments descr {T} _.
Arguments dimensions {T} _.
Arguments data {T} _.

(** [vector_to_nparray]: a non-empty vector is copied into a fresh array of
    the requested element type; an empty one becomes [PyArray_ZEROS] of
    length 0 and of type [PyArray_FLOAT], whatever type was requested. *)
Definition vector_to_nparray {T} (vec : list T) (type_num : npy_type) : PyArrayObject T :=
  match vec with
  | [] => mkArray PyArray_FLOAT [0%nat] []
  | _ :: _ => mkArray type_num [length vec] vec
  end.

(** ** The vote filter *)

(** The loop of [filter_leaves_by_votes].  [iters] counts the remaining
    iterations ([num_leaves - i]), [leaves] is what the moving pointer still
    has in front of it, [votes] is the Eigen vector of counters and
    [voted_leaves] the output vector.  Reading past the end of the input and
    indexing [votes] outside its size are undefined. *)
Fixpoint vote_loop (iters : nat) (leaves : list Z) (votes_required : Z)
    (votes : list Z) (voted_leaves : list Z) : outcome (list Z) :=
  match iters with
  | O => Ret voted_leaves
  | S iters' =>
    match leaves with
    | [] => Undef
    | x :: leaves' =>
      if decide (0 <= x) then
        match votes !! Z.to_nat x with
        | None => Undef
        | Some c =>
          let c' := wrap32 (c + 1) in
          vote_loop iters' leaves' votes_required
            (<[Z.to_nat x := c']> votes)
            (if decide (c' = votes_required) then voted_leaves ++ [x] else voted_leaves)
        end
      else Undef
    end
  end.

(** The candidate vector built by [filter_leaves_by_votes] before it is
    converted: [VectorXi::Zero(num_leaves)] needs a size that is not
    negative. *)
Definition voted_leaves_of (l : list Z) (num_leaves votes_required : Z) : outcome (list Z) :=
  if decide (0 <= num_leaves) then
    vote_loop (Z.to_nat num_leaves) l votes_required
      (replicate (Z.to_nat num_leaves) 0) []
  else Undef.

Definition filter_leaves_by_votes (l : list Z) (num_leaves votes_required : Z)
    : outcome (PyArrayObject Z) :=
  voted ← voted_leaves_of l num_leaves votes_required;
  Ret (vector_to_nparray voted PyArray_INT).

(** *** The filter as the specification words it

    [occ x seen] is the number of votes [x] has received in [seen];
    [reached t seen l] lists, in order, the entries of [l] whose running
    count (votes in [seen] and in [l] up to and including the entry) equals
    the threshold [t]. *)

Fixpoint occ (x : Z) (l : list Z) : Z :=
  match l with
  | [] => 0
  | y :: l' => (if decide (x = y) then 1 else 0) + occ x l'
  end.

Fixpoint reached (t : Z) (seen l : list Z) : list Z :=
  match l with
  | [] => []
  | x :: l' =>
    (if decide (occ x seen + 1 = t) then [x] else []) ++ reached t (x :: seen) l'
  end.

Definition in_bounds (num_leaves : Z) (l : list Z) : Prop :=
  Forall (fun x => 0 <= x < num_leaves) l.

(** The loop invariant: [votes] holds, for every index, the number of
    votes counted in [seen]. *)
Definition tally_ok (votes seen : list Z) : Prop :=
  forall (i : nat) (c : Z), votes !! i = Some c -> c = occ (Z.of_nat i) seen.

(** ** Floats and the dataset

    The source stores 32-bit floats.  A float is modelled as the rational
    number it denotes and arithmetic on floats is exact: rounding is left
    out of the model. *)

Definition scalar : Type := Q.

(** The dataset as [Mrpt_init] hands it to the engine:
    [Eigen::Map<const MatrixXf>(data, dim, n)], a column-major matrix with
    [dim] rows whose column [j] is the point [j]. *)
Record DatasetView : Type := mkView {
  base : list scalar;
  n_points : Z;
  view_dim : Z
}.

Definition col (X : DatasetView) (j : Z) : list scalar :=
  take (Z.to_nat (view_dim X)) (drop (Z.to_nat (j * view_dim X)) (base X)).

(** Modelled from the spec: the dot product of section 4.3 and the squared
    Euclidean distance of section 4.6 (Eigen computes both inside the
    missing Mrpt.h). *)
Definition dot (a b : list scalar) : scalar :=
  foldr Qplus 0%Q (zip_with Qmult a b).

Definition sqdist (p q : list scalar) : scalar :=
  foldr Qplus 0%Q (zip_with (fun a b => ((a - b) * (a - b))%Q) p q).

(** ** The engine (Mrpt.h) *)

(** Modelled from the spec: the Tree Node of section 3 (Mrpt.h is missing):
    an internal node carries a projection vector, a split value and two
    children, a leaf an ordered sequence of point indices. *)
Inductive TreeNode : Type :=
  | Internal (projection : list scalar) (split_value : scalar) (lchild rchild : TreeNode)
  | Leaf (point_indices : list Z).

(** Modelled from the spec: the Forest of section 3 (the class [Mrpt] of
    the missing Mrpt.h): the borrowed dataset, the trees, the build
    parameters and the [built] flag. *)
Record Mrpt : Type := mkMrpt {
  X : DatasetView;
  n_trees : Z;
  depth : Z;
  density : scalar;
  trees : list TreeNode;
  built : bool
}.

(** Modelled from the spec: a density inside (0, 1] (section 6; the check
    is in the missing Mrpt.h). *)
Definition density_ok (d : scalar) : bool :=
  negb (Qle_bool d 0) && Qle_bool d 1.

(** Modelled from the spec: the constructor of the missing class [Mrpt],
    after section 6: construction fails with [InvalidParameter] on
    [n_trees <= 0], [depth < 0] or a density outside (0, 1]; no tree exists
    before [grow]. *)
Definition Mrpt_ctor (X : DatasetView) (n_trees depth : Z) (density : scalar)
    : outcome Mrpt :=
  if decide (n_trees <= 0) then Raise InvalidParameter
  else if decide (depth < 0) then Raise InvalidParameter
  else if density_ok density then Ret (mkMrpt X n_trees depth density [] false)
  else Raise InvalidParameter.

(** Modelled from the spec: [grow] of the missing Mrpt.h (section 4.4).
    The construction is randomised; [grown] stands for the trees it
    produced.  It turns [built] from false to true. *)
Definition grow (grown : list TreeNode) (f : Mrpt) : Mrpt :=
  mkMrpt (X f) (n_trees f) (depth f) (density f) grown true.

(** Modelled from the spec: [route] of section 4.3 (Mrpt.h is missing):
    at an internal node go left when the projection of the query is less
    than the split value, else right; a leaf gives its point indices. *)
Fixpoint route (t : TreeNode) (q : list scalar) : list Z :=
  match t with
  | Leaf point_indices => point_indices
  | Internal projection split_value lchild rchild =>
    if Qlt_le_dec (dot q projection) split_value then route lchild q else route rchild q
  end.

(** Modelled from the spec: [get_leaf_indices] of the missing Mrpt.h, step 2
    of section 4.5: the point indices of the leaf the query reaches in each
    tree, one tree after the other. *)
Definition get_leaf_indices (f : Mrpt) (q : list scalar) : list Z :=
  concat ((fun t => route t q) <$> trees f).

(** Modelled from the spec: the Candidate Set, step 3 of section 4.5
    (Mrpt.h is missing): a point is added once, when its count reaches the
    threshold; with a threshold of 1 or less every point that appears is a
    candidate. *)
Definition candidate_set (votes : list Z) (vote_threshold : Z) : list Z :=
  reached (Z.max 1 vote_threshold) [] votes.

(** Modelled from the spec: the order of section 4.6 (the selection is in
    the missing Mrpt.h).  A point is ranked by its squared distance to the
    query, then by its index; [key_leb] decides the order, [key_le] is the
    order. *)
Definition key (X : DatasetView) (q : list scalar) (i : Z) : scalar * Z :=
  (sqdist (col X i) q, i).

Definition key_leb (a b : scalar * Z) : bool :=
  match (a.1 ?= b.1)%Q with
  | Lt => true
  | Eq => bool_decide (a.2 <= b.2)
  | Gt => false
  end.

Definition key_le (a b : scalar * Z) : Prop := key_leb a b = true.

(** Strictly before: a smaller distance, or the same distance and a smaller
    index. *)
Definition key_lt (a b : scalar * Z) : Prop :=
  (a.1 < b.1)%Q \/ ((a.1 == b.1)%Q /\ a.2 < b.2).

#[global] Instance key_le_dec : RelDecision key_le.
Proof. intros a b. unfold key_le. apply _. Defined.

(** Modelled from the spec: the selection of section 4.6 (Mrpt.h is
    missing): the squared distance of every referenced point, then the [k]
    smallest, ties broken by ascending point index; fewer than [k]
    candidates give as many results as there are. *)
Definition select_knn (X : DatasetView) (q : list scalar) (k : Z) (indices : list Z)
    : list (scalar * Z) :=
  take (Z.to_nat k) (merge_sort key_le (key X q <$> indices)).

(** Modelled from the spec: [exact_knn] of the missing Mrpt.h (sections 4.6
    and 8): a query whose length is not the dimensionality of the index
    fails with [DimensionMismatch]. *)
Definition exact_knn (f : Mrpt) (q : list scalar) (k : Z) (indices : list Z)
    : outcome (list (scalar * Z)) :=
  if decide (Z.of_nat (length q) = view_dim (X f)) then Ret (select_knn (X f) q k indices)
  else Raise DimensionMismatch.

(** Modelled from the spec: [query_from_leaves] of the missing Mrpt.h,
    steps 1 and 3 to 5 of section 4.5 on a vote sequence given by the
    caller; a forest that is not built fails with [NotBuilt]
    (section 4.4). *)
Definition query_from_leaves (f : Mrpt) (q : list scalar) (leaves : list Z)
    (k elect : Z) : outcome (list (scalar * Z)) :=
  if built f then
    if decide (Z.of_nat (length q) = view_dim (X f)) then
      Ret (select_knn (X f) q k (candidate_set leaves elect))
    else Raise DimensionMismatch
  else Raise NotBuilt.

(** Modelled from the spec: [query] of the missing Mrpt.h, section 4.5:
    the votes are the leaves the query is routed to. *)
Definition query (f : Mrpt) (q : list scalar) (k elect : Z)
    : outcome (list (scalar * Z)) :=
  query_from_leaves f q (get_leaf_indices f q) k elect.

(** ** The extension type *)

(** [mrptIndex]: [ptr] and [data] are null after [Mrpt_new]. *)
Record mrptIndex : Type := mkIndex {
  ptr : option Mrpt;
  data_buf : option (list scalar);
  use_mmap : bool;
  n : Z;
  dim : Z
}.

Definition Mrpt_new : mrptIndex := mkIndex None None false 0 0.

Inductive PyObject : Type :=
  | Py_None
  | PyArr (nearest : PyArrayObject Z)
  | PyTuple (nearest : PyArrayObject Z) (distances : PyArrayObject scalar).

(** The argument [v] of the query methods: an array of one dimension, or
    of two, [rows] by [cols], stored row after row. *)
Inductive QueryArray : Type :=
  | Vec (v : list scalar)
  | Mat (rows cols : Z) (v : list scalar).

(** [PyArray_SimpleNew] does not initialise the array.  [junk] is what the
    fresh memory holds; [filled junk off k res] is the [k]-cell slice at
    offset [off] after the engine has written [res] at its start.  Writing
    more than [k] cells leaves the buffer. *)
Definition filled {T} (junk : nat -> T) (off k : nat) (res : list T) : outcome (list T) :=
  if decide (length res <= k)%nat then
    Ret (res ++ (junk <$> seq (off + length res) (k - length res)))
  else Undef.

Definition iota (n : Z) : list Z := Z.of_nat <$> seq 0 (Z.to_nat n).

(** Row [i] of a two-dimensional query array: [indata + i * dim]. *)
Definition row (v : list scalar) (cols : Z) (i : nat) : list scalar :=
  take (Z.to_nat cols) (drop (i * Z.to_nat cols) v).

Section Methods.

(** The content of freshly allocated int and float arrays. *)
Variable junk_i : nat -> Z.
Variable junk_d : nat -> scalar.

(** The common shape of [ann], [ann_from_leaves] and [exact_search]: the
    output arrays have [k] cells per query, the engine call [search]
    writes its result into them, and the method returns the index array,
    or the pair of both arrays when [return_distances] is set. *)
Definition one_query (search : list scalar -> outcome (list (scalar * Z)))
    (q : list scalar) (off k : nat) : outcome (list Z * list scalar) :=
  res ← search q;
  nearest ← filled junk_i off k (res.*2);
  distances ← filled junk_d off k (res.*1);
  Ret (nearest, distances).

Definition run_queries (search : list scalar -> outcome (list (scalar * Z)))
    (v : QueryArray) (k return_distances : Z) : outcome PyObject :=
  if decide (0 <= k) then
    let kn := Z.to_nat k in
    match v with
    | Vec q =>
      '(nearest, distances) ← one_query search q 0 kn;
      if decide (return_distances = 0)
      then Ret (PyArr (mkArray PyArray_INT [kn] nearest))
      else Ret (PyTuple (mkArray PyArray_INT [kn] nearest)
                        (mkArray PyArray_FLOAT [kn] distances))
    | Mat rows cols m =>
      if decide (0 <= rows) then
        let rn := Z.to_nat rows in
        outs ← mapM (fun i => one_query search (row m cols i) (i * kn) kn) (seq 0 rn);
        if decide (return_distances = 0)
        then Ret (PyArr (mkArray PyArray_INT [rn; kn] (concat (outs.*1))))
        else Ret (PyTuple (mkArray PyArray_INT [rn; kn] (concat (outs.*1)))
                          (mkArray PyArray_FLOAT [rn; kn] (concat (outs.*2))))
      else Undef
    end
  else Undef.

(** [ann].  [self->ptr] is dereferenced where the engine is called, once
    for each query vector: a batch without rows never reaches it. *)
Definition ann (self : mrptIndex) (v : QueryArray) (k elect return_distances : Z)
    : outcome PyObject :=
  run_queries
    (fun q => match ptr self with
              | None => Undef
              | Some f => query f q k elect
              end)
    v k return_distances.

(** [ann_from_leaves]: one query vector and the caller's leaves; the
    first [num_leaves] entries of [l] are read. *)
Definition ann_from_leaves (self : mrptIndex) (v : list scalar) (l : list Z)
    (num_leaves k elect return_distances : Z) : outcome PyObject :=
  match ptr self with
  | None => Undef
  | Some f =>
    if decide (0 <= num_leaves <= Z.of_nat (length l)) then
      run_queries
        (fun q => query_from_leaves f q (take (Z.to_nat num_leaves) l) k elect)
        (Vec v) k return_distances
    else Undef
  end.

(** [exact_search]: the candidates are all points, [0 .. self->n - 1];
    [idx] is built before the query array is looked at, and [self->ptr] is
    dereferenced where the engine is called. *)
Definition exact_search (self : mrptIndex) (v : QueryArray) (k return_distances : Z)
    : outcome PyObject :=
  if decide (0 <= n self) then
    run_queries
      (fun q => match ptr self with
                | None => Undef
                | Some f => exact_knn f q k (iota (n self))
                end)
      v k return_distances
  else Undef.

End Methods.

(** ** Files

    A data file is a sequence of floats, four bytes each.  An index file is
    a sequence of four-byte fields, each an integer or a float; the bytes
    inside a field are not modelled.  A disk holds the data files, the
    index files and the names that cannot be written. *)

(** Modelled from the spec: the fields of the persisted format of section
    6 (the codec of Mrpt.h is missing): integers and 32-bit floats. *)
Inductive field : Type :=
  | FInt (z : Z)
  | FFloat (x : scalar).

Record Disk : Type := mkDisk {
  data_files : gmap string (list scalar);
  index_files : gmap string (list field);
  read_only : gset string
}.

(** ** Construction *)

(** [read_memory]: [new float[n * dim]], then [fread] of [n * dim] floats;
    a missing file or a short read gives [NULL]. *)
Definition read_memory (d : Disk) (file : string) (n dim : Z)
    : outcome (option (list scalar)) :=
  let count := wrap32 (n * dim) in
  if decide (0 <= count) then
    match data_files d !! file with
    | None => Ret None
    | Some content =>
      let got := take (Z.to_nat count) content in
      if decide (Z.of_nat (length got) = count) then Ret (Some got) else Ret None
    end
  else Undef.

(** [read_mmap]: the file mapped read-only over [n * dim * sizeof(float)]
    bytes, the product taken in [int] and then widened to [size_t]; a
    missing file gives [NULL], and so does a length of 0 or one that
    exceeds the address space (a negative product), for which [mmap]
    fails. *)
Definition read_mmap (d : Disk) (file : string) (n dim : Z)
    : outcome (option (list scalar)) :=
  match data_files d !! file with
  | None => Ret None
  | Some content =>
    if decide (wrap32 (n * dim) <= 0) then Ret None
    else Ret (Some content)
  end.

(** The first argument of [Mrpt_init]: a file name or an array. *)
Inductive PyData : Type :=
  | PyString (file : string)
  | PyArrayData (a : list scalar).

(** [self->mmap = mmap; self->data = data]. *)
Definition set_data (self : mrptIndex) (data : list scalar) (mmap : Z) : mrptIndex :=
  mkIndex (ptr self) (Some data) (bool_decide (mmap <> 0)) (n self) (dim self).

(** The end of [Mrpt_init]: [self->n] and [self->dim] are set, then the
    engine is constructed over the data.  A failing constructor leaves
    [self->ptr] as it was. *)
Definition construct (self : mrptIndex) (data : list scalar)
    (n dim depth n_trees : Z) (density : scalar) : mrptIndex * outcome Z :=
  let self' := mkIndex (ptr self) (data_buf self) (use_mmap self) n dim in
  match Mrpt_ctor (mkView data n dim) n_trees depth density with
  | Ret f => (mkIndex (Some f) (data_buf self) (use_mmap self) n dim, Ret 0)
  | Raise e => (self', Raise e)
  | Undef => (self', Undef)
  end.

(** [Mrpt_init]: the new state of [self] and the result, [Ret 0] for
    success and [Raise e] for the return of -1 with the exception [e]
    set. *)
Definition Mrpt_init (d : Disk) (self : mrptIndex) (py_data : PyData)
    (n dim depth n_trees : Z) (density : scalar) (mmap : Z)
    : mrptIndex * outcome Z :=
  match py_data with
  | PyString file =>
    match data_files d !! file with
    | None => (self, Raise PyExc_IOError)
    | Some content =>
      if decide (4 * Z.of_nat (length content) = (4 * dim * n) mod 2 ^ 32) then
        match (if decide (mmap = 0) then read_memory d file n dim
               else read_mmap d file n dim) with
        | Ret (Some data) =>
          construct (set_data self data mmap) data n dim depth n_trees density
        | Ret None => (self, Raise PyExc_IOError)
        | Raise e => (self, Raise e)
        | Undef => (self, Undef)
        end
      else (self, Raise PyExc_ValueError)
    end
  | PyArrayData a => construct self a n dim depth n_trees density
  end.

(** [build]. *)
Definition build (grown : list TreeNode) (self : mrptIndex) : mrptIndex * outcome PyObject :=
  match ptr self with
  | None => (self, Undef)
  | Some f =>
    (mkIndex (Some (grow grown f)) (data_buf self) (use_mmap self) (n self) (dim self),
     Ret Py_None)
  end.

(** ** Persistence *)

(** Modelled from the spec: the format version that section 6 asks the
    persisted format to record (the codec of Mrpt.h is missing). *)
Definition FORMAT_VERSION : Z := 1.

(** Modelled from the spec: the persisted format of sections 4.9 and 6
    (the codec of Mrpt.h is missing): the format version, [n], [dim],
    [n_trees], [depth] and [density], then every tree depth-first: a node
    type, and for an internal node the projection vector, the split value
    and the two children, for a leaf the number of indices and the
    indices. *)
Fixpoint encode_tree (t : TreeNode) : list field :=
  match t with
  | Leaf point_indices =>
    FInt 0 :: FInt (Z.of_nat (length point_indices)) :: (FInt <$> point_indices)
  | Internal projection split_value lchild rchild =>
    FInt 1 :: (FFloat <$> projection) ++ FFloat split_value
      :: encode_tree lchild ++ encode_tree rchild
  end.

Definition encode_forest (f : Mrpt) : list field :=
  [FInt FORMAT_VERSION; FInt (n_points (X f)); FInt (view_dim (X f));
   FInt (n_trees f); FInt (depth f); FFloat (density f)]
  ++ concat (encode_tree <$> trees f).

(** Modelled from the spec: the readers of the decoder (missing with
    Mrpt.h).  A reader takes fields from the front of the stream; a stream
    that ends early or holds a field of the wrong kind is [CorruptData]
    (section 4.9). *)
Definition reader (A : Type) : Type := list field -> outcome (A * list field).

Definition get_int : reader Z := fun s =>
  match s with
  | FInt z :: s' => Ret (z, s')
  | _ => Raise CorruptData
  end.

Definition get_float : reader scalar := fun s =>
  match s with
  | FFloat x :: s' => Ret (x, s')
  | _ => Raise CorruptData
  end.

Fixpoint get_many {A} (get : reader A) (count : nat) : reader (list A) := fun s =>
  match count with
  | O => Ret ([], s)
  | S count' =>
    '(x, s1) ← get s;
    '(xs, s2) ← get_many get count' s1;
    Ret (x :: xs, s2)
  end.

(** Modelled from the spec: a leaf index outside [[0, n)] is
    [CorruptData] (section 4.9; the decoder is missing with Mrpt.h). *)
Definition get_index (n : Z) : reader Z := fun s =>
  '(i, s1) ← get_int s;
  if decide (0 <= i < n) then Ret (i, s1) else Raise CorruptData.

(** Modelled from the spec: the tree decoder of section 4.9 (missing with
    Mrpt.h).  [levels] is the declared depth that is left: an internal node
    below it is a shape that does not match the declared depth. *)
Fixpoint decode_tree (levels : nat) (n dim : Z) : reader TreeNode := fun s =>
  '(tag, s1) ← get_int s;
  if decide (tag = 0) then
    '(count, s2) ← get_int s1;
    if decide (0 <= count) then
      '(point_indices, s3) ← get_many (get_index n) (Z.to_nat count) s2;
      Ret (Leaf point_indices, s3)
    else Raise CorruptData
  else if decide (tag = 1) then
    match levels with
    | O => Raise CorruptData
    | S levels' =>
      '(projection, s2) ← get_many get_float (Z.to_nat dim) s1;
      '(split_value, s3) ← get_float s2;
      '(lchild, s4) ← decode_tree levels' n dim s3;
      '(rchild, s5) ← decode_tree levels' n dim s4;
      Ret (Internal projection split_value lchild rchild, s5)
    end
  else Raise CorruptData.

(** Modelled from the spec: [load] of section 4.9 (missing with Mrpt.h):
    metadata that does not agree with the dataset is a [FormatError], a
    truncated or structurally invalid stream is [CorruptData]; the forest
    read is bound to the dataset of the caller and is built. *)
Definition decode_forest (X : DatasetView) : list field -> outcome Mrpt := fun s =>
  '(version, s1) ← get_int s;
  if decide (version = FORMAT_VERSION) then
    '(n, s2) ← get_int s1;
    '(dim, s3) ← get_int s2;
    if decide (n = n_points X /\ dim = view_dim X) then
      '(n_trees, s4) ← get_int s3;
      '(depth, s5) ← get_int s4;
      '(density, s6) ← get_float s5;
      if decide (0 <= n_trees /\ 0 <= depth /\ 0 <= dim) then
        '(trees, s7) ← get_many (decode_tree (Z.to_nat depth) n dim) (Z.to_nat n_trees) s6;
        match s7 with
        | [] => Ret (mkMrpt X n_trees depth density trees true)
        | _ :: _ => Raise CorruptData
        end
      else Raise CorruptData
    else Raise FormatError
  else Raise FormatError.

(** Modelled from the spec: [Mrpt::save] (Mrpt.h is missing), section 6:
    success or failure.  A built forest is written to a destination that
    can be written. *)
Definition Mrpt_save (f : Mrpt) (fn : string) (d : Disk) : Disk * bool :=
  if built f && bool_decide (fn ∉ read_only d) then
    (mkDisk (data_files d) (<[fn := encode_forest f]> (index_files d)) (read_only d), true)
  else (d, false).

(** Modelled from the spec: [Mrpt::load] (Mrpt.h is missing): the forest
    read from the file replaces the state of the engine object, which keeps
    its dataset; after a failure the object is not built (section 7). *)
Definition Mrpt_load (f : Mrpt) (fn : string) (d : Disk) : Mrpt * bool :=
  match index_files d !! fn with
  | Some s =>
    match decode_forest (X f) s with
    | Ret f' => (f', true)
    | _ => (mkMrpt (X f) (n_trees f) (depth f) (density f) [] false, false)
    end
  | None => (mkMrpt (X f) (n_trees f) (depth f) (density f) [] false, false)
  end.

(** [save]. *)
Definition save (d : Disk) (self : mrptIndex) (fn : string) : Disk * outcome PyObject :=
  match ptr self with
  | None => (d, Undef)
  | Some f =>
    let '(d', ok) := Mrpt_save f fn d in
    if ok then (d', Ret Py_None) else (d', Raise PyExc_IOError)
  end.

(** [load]. *)
Definition load (d : Disk) (self : mrptIndex) (fn : string) : mrptIndex * outcome PyObject :=
  match ptr self with
  | None => (self, Undef)
  | Some f =>
    let '(f', ok) := Mrpt_load f fn d in
    let self' := mkIndex (Some f') (data_buf self) (use_mmap self) (n self) (dim self) in
    if ok then (self', Ret Py_None) else (self', Raise PyExc_IOError)
  end.

(** The forests that [save] is meant for: built, with as many trees as
    declared, every tree no deeper than the declared depth, every
    projection vector as long as the dimensionality, and every leaf index
    the index of a point. *)
Fixpoint tree_ok (levels : nat) (n dim : Z) (t : TreeNode) {struct t} : Prop :=
  match t with
  | Leaf point_indices => Forall (fun i => 0 <= i < n) point_indices
  | Internal projection split_value lchild rchild =>
    match levels with
    | O => False
    | S levels' =>
      length projection = Z.to_nat dim /\
      tree_ok levels' n dim lchild /\ tree_ok levels' n dim rchild
    end
  end.

Definition forest_ok (f : Mrpt) : Prop :=
  built f = true /\
  n_trees f = Z.of_nat (length (trees f)) /\
  0 <= depth f /\ 0 <= view_dim (X f) /\
  Forall (tree_ok (Z.to_nat (depth f)) (n_points (X f)) (view_dim (X f))) (trees f).

(** The query arrays whose vectors do not have the dimensionality of the
    engine [f]: a vector of another length, or a well-formed matrix with at
    least one row and another number of columns. *)
Definition wrong_dimension (f : Mrpt) (v : QueryArray) : Prop :=
  match v with
  | Vec q => Z.of_nat (length q) <> view_dim (X f)
  | Mat rows cols m =>
    1 <= rows /\ 0 <= cols /\ Z.of_nat (length m) = rows * cols /\ cols <> view_dim (X f)
  end.

(** The nearest neighbours, stated on the point indices: [nearest] has
    [k] entries without repetition, all of them candidates, in strictly
    ascending order of (distance, index), and every candidate left out
    comes strictly after every entry. *)
Definition k_nearest (X : DatasetView) (q : list scalar) (k : Z) (indices nearest : list Z)
    : Prop :=
  Z.of_nat (length nearest) = k /\
  NoDup nearest /\
  (forall i, i ∈ nearest -> i ∈ indices) /\
  StronglySorted (fun i j => key_lt (key X q i) (key X q j)) nearest /\
  (forall i j, i ∈ nearest -> j ∈ indices -> j ∉ nearest ->
     key_lt (key X q i) (key X q j)).

(** The size check of [Mrpt_init] on a data file: the size of the file
    against [sizeof(float) * dim * n] cut to 32 bits. *)
Definition size_matches (content : list scalar) (np nd : Z) : Prop :=
  4 * Z.of_nat (length content) = (4 * nd * np) mod 2 ^ 32.

(** The data file is read by [Mrpt_init]: through [read_memory]
    (mmap = 0) when it holds exactly [n * dim] floats, the product taken in
    [int]; through [read_mmap] when that product is positive. *)
Definition file_is_read (content : list scalar) (np nd mmap : Z) : Prop :=
  if decide (mmap = 0) then Z.of_nat (length content) = wrap32 (np * nd)
  else 0 < wrap32 (np * nd).

(** ** A small index

    Four points at the corners of the unit square, one tree of depth 1 that
    splits on the first coordinate. *)

Definition square_points : list scalar := [0; 0; 1; 0; 0; 1; 1; 1]%Q.

Definition square_view : DatasetView := mkView square_points 4 2.

Definition square_forest : Mrpt :=
  mkMrpt square_view 1 1 1%Q
    [Internal [1; 0]%Q (1 # 2)%Q (Leaf [0; 2]) (Leaf [1; 3])] true.

Definition square_index : mrptIndex := mkIndex (Some square_forest) None false 4 2.

(** ** The other methods *)

Section MoreMethods.

Variable junk_i : nat -> Z.
Variable junk_d : nat -> scalar.

(** [get_nearest_leaves]: one query vector; the candidates are the first
    [num_leaves] entries of [leaves], copied into [idx]; only the index
    array is returned. *)
Definition get_nearest_leaves (self : mrptIndex) (v : list scalar) (leaves : list Z)
    (num_leaves k : Z) : outcome PyObject :=
  match ptr self with
  | None => Undef
  | Some f =>
    if decide (0 <= num_leaves <= Z.of_nat (length leaves)) then
      run_queries junk_i junk_d
        (fun q => exact_knn f q k (take (Z.to_nat num_leaves) leaves))
        (Vec v) k 0
    else Undef
  end.

(** The engine's [get_leaf_info(index, vals)] is not in the source: it is
    given the buffer of a fresh array and leaves it filled. *)
Variable engine_leaf_info : Mrpt -> Z -> list scalar -> outcome (list scalar).

(** The loop of [get_leaf_info].  Each round allocates a float array of
    [dimensions] cells, lets the engine fill it for the id under the
    pointer, and stores it in the dictionary under that id;
    [PyDict_SetItem] replaces an entry that is already there.  [round]
    numbers the allocations. *)
Fixpoint leaf_info_loop (iters : nat) (leaf_indices : list Z) (dimensions : Z)
    (engine : option Mrpt) (round : nat) (leaf_dict : gmap Z (PyArrayObject scalar))
    : outcome (gmap Z (PyArrayObject scalar)) :=
  match iters with
  | O => Ret leaf_dict
  | S iters' =>
    match leaf_indices with
    | [] => Undef
    | x :: leaf_indices' =>
      if decide (0 <= dimensions) then
        match engine with
        | None => Undef
        | Some f =>
          let cells := Z.to_nat dimensions in
          vals ← engine_leaf_info f x (junk_d <$> seq (round * cells) cells);
          leaf_info_loop iters' leaf_indices' dimensions engine (S round)
            (<[x := mkArray PyArray_FLOAT [cells] vals]> leaf_dict)
        end
      else Undef
    end
  end.

(** [get_leaf_info]: the dictionary from the first [len] ids of [v] to
    their arrays. *)
Definition get_leaf_info (self : mrptIndex) (v : list Z) (len dimensions : Z)
    : outcome (gmap Z (PyArrayObject scalar)) :=
  leaf_info_loop (Z.to_nat len) v dimensions (ptr self) 0 ∅.

End MoreMethods.

(** The shape of the arrays a query method returns for the query array [v]
    and [k]. *)
Definition shape_of (v : QueryArray) (k : Z) : list nat :=
  match v with
  | Vec _ => [Z.to_nat k]
  | Mat rows _ _ => [Z.to_nat rows; Z.to_nat k]
  end.

Definition cells_of (shape : list nat) : nat := foldr Nat.mul 1%nat shape.

(** What a query method returns: the int array of indices alone when
    [return_distances] is 0, else the pair with the float array of
    distances; both of the shape [shape_of v k] and with that many
    entries. *)
Definition well_shaped (v : QueryArray) (k return_distances : Z) (obj : PyObject) : Prop :=
  match obj with
  | Py_None => False
  | PyArr a =>
    return_distances = 0 /\
    descr a = PyArray_INT /\ dimensions a = shape_of v k /\
    length (data a) = cells_of (shape_of v k)
  | PyTuple a d =>
    return_distances <> 0 /\
    descr a = PyArray_INT /\ dimensions a = shape_of v k /\
    length (data a) = cells_of (shape_of v k) /\
    descr d = PyArray_FLOAT /\ dimensions d = shape_of v k /\
    length (data d) = cells_of (shape_of v k)
  end.

(** A result for one query vector seen as the result for a batch of one
    row. *)
Definition as_one_row (obj : PyObject) : PyObject :=
  match obj with
  | Py_None => Py_None
  | PyArr a => PyArr (mkArray (descr a) (1%nat :: dimensions a) (data a))
  | PyTuple a d =>
    PyTuple (mkArray (descr a) (1%nat :: dimensions a) (data a))
            (mkArray (descr d) (1%nat :: dimensions d) (data d))
  end.
(** ** Facts about [occ] and [reached] *)

Lemma occ_nonneg x l : 0 <= occ x l.
Proof. induction l as [|y l IH]; simpl; [lia|]. destruct (decide (x = y)); lia. Qed.

Lemma occ_le_length x l : occ x l <= Z.of_nat (length l).
Proof. induction l as [|y l IH]; simpl; [lia|]. destruct (decide (x = y)); lia. Qed.

Lemma occ_app x l1 l2 : occ x (l1 ++ l2) = occ x l1 + occ x l2.
Proof. induction l1 as [|y l1 IH]; simpl; [lia|]. rewrite IH. lia. Qed.

Lemma occ_pos_iff x l : 0 < occ x l <-> In x l.
Proof.
  induction l as [|y l IH]; simpl; [split; [lia | tauto]|].
  destruct (decide (x = y)) as [->|Hne].
  - split; [auto | intros _; pose proof (occ_nonneg y l); lia].
  - rewrite Z.add_0_l, IH. split; [auto | intros [H | H]; [congruence | exact H]].
Qed.

Lemma reached_In t seen l y : In y (reached t seen l) -> In y l.
Proof.
  revert seen. induction l as [|x l IH]; simpl; intros seen H; [exact H|].
  apply in_app_or in H as [H | H].
  - destruct (decide (occ x seen + 1 = t)); simpl in H; [tauto | contradiction].
  - right. eauto.
Qed.

(** For a threshold of at least 1, an index is listed exactly when its count
    passes from below the threshold to the threshold or above. *)
Lemma reached_iff t seen l y :
  1 <= t ->
  In y (reached t seen l) <-> occ y seen < t <= occ y seen + occ y l.
Proof.
  intros Ht. revert seen. induction l as [|x l IH]; simpl; intros seen.
  - split; [tauto | lia].
  - pose proof (occ_nonneg y l) as Hn.
    rewrite in_app_iff, IH. simpl.
    destruct (decide (y = x)) as [->|Hne];
      destruct (decide (occ x seen + 1 = t)) as [He|He]; simpl;
      (split; [intros [Hi|Hi] | intros Hi]); try lia; try tauto;
      try (destruct Hi as [Hi|[]]; congruence);
      try (right; lia); try (left; left; reflexivity).
Qed.

Lemma reached_NoDup t seen l : 1 <= t -> NoDup (reached t seen l).
Proof.
  intros Ht. revert seen. induction l as [|x l IH]; simpl; intros seen.
  - constructor.
  - destruct (decide (occ x seen + 1 = t)) as [He|He]; simpl; [|apply IH].
    constructor; [|apply IH].
    rewrite list_elem_of_In, reached_iff by exact Ht. simpl.
    destruct (decide (x = x)); [lia | congruence].
Qed.

Lemma reached_nonpos t seen l : t <= 0 -> reached t seen l = [].
Proof.
  intros Ht. revert seen. induction l as [|x l IH]; simpl; intros seen; [reflexivity|].
  pose proof (occ_nonneg x seen).
  destruct (decide (occ x seen + 1 = t)); [lia|]. simpl. apply IH.
Qed.

(** ** The loop computes [reached] *)

Lemma wrap32_small z : INT_MIN <= z <= INT_MAX -> wrap32 z = z.
Proof.
  unfold wrap32, INT_MIN, INT_MAX. intros Hz.
  rewrite Z.mod_small; lia.
Qed.

Lemma tally_ok_zero n : tally_ok (replicate n 0) [].
Proof. intros i c H. apply lookup_replicate in H as [-> _]. reflexivity. Qed.

Lemma tally_ok_step votes seen x c :
  0 <= x ->
  votes !! Z.to_nat x = Some c ->
  tally_ok votes seen ->
  tally_ok (<[Z.to_nat x := c + 1]> votes) (x :: seen).
Proof.
  intros Hx Hc Hok i d Hd. simpl.
  destruct (decide (i = Z.to_nat x)) as [->|Hne].
  - rewrite list_lookup_insert_eq in Hd by (eapply lookup_lt_Some; eauto).
    injection Hd as <-. rewrite Z2Nat.id by exact Hx.
    destruct (decide (x = x)); [|congruence].
    rewrite (Hok _ _ Hc), Z2Nat.id by exact Hx. lia.
  - rewrite list_lookup_insert_ne in Hd by congruence.
    destruct (decide (Z.of_nat i = x)) as [He|He]; [subst x; rewrite Nat2Z.id in Hne; congruence|].
    rewrite (Hok _ _ Hd). lia.
Qed.

Lemma vote_loop_reached t l : forall seen votes out,
  in_bounds (Z.of_nat (length votes)) l ->
  tally_ok votes seen ->
  Z.of_nat (length seen + length l) <= INT_MAX ->
  vote_loop (length l) l t votes out = Ret (out ++ reached t seen l).
Proof.
  induction l as [|x l IH]; intros seen votes out Hb Hok Hlen; simpl.
  - rewrite app_nil_r. reflexivity.
  - apply Forall_cons in Hb as [Hx Hb].
    destruct (decide (0 <= x)) as [Hx0|]; [|lia].
    destruct (lookup_lt_is_Some_2 votes (Z.to_nat x)) as [c Hc]; [lia|].
    rewrite Hc.
    assert (Hcx : c = occ x seen).
    { rewrite (Hok _ _ Hc), Z2Nat.id by exact Hx0. reflexivity. }
    pose proof (occ_nonneg x seen) as Hn.
    pose proof (occ_le_length x seen) as Hl.
    simpl in Hlen.
    rewrite wrap32_small by (unfold INT_MIN, INT_MAX in *; lia).
    rewrite (IH (x :: seen)).
    + subst c. destruct (decide (occ x seen + 1 = t)); simpl;
        rewrite <- ?app_assoc; reflexivity.
    + rewrite length_insert. exact Hb.
    + apply tally_ok_step; assumption.
    + simpl. lia.
Qed.

(** On well-formed input the binding's loop is [reached] from an empty
    tally. *)
Lemma voted_leaves_of_reached l n t :
  n = Z.of_nat (length l) -> is_int n -> in_bounds n l ->
  voted_leaves_of l n t = Ret (reached t [] l).
Proof.
  intros -> [_ Hn] Hb. unfold voted_leaves_of.
  destruct (decide (0 <= Z.of_nat (length l))); [|lia].
  rewrite Nat2Z.id.
  apply (vote_loop_reached t l [] (replicate (length l) 0) []).
  - rewrite length_replicate. exact Hb.
  - apply tally_ok_zero.
  - simpl. exact Hn.
Qed.

(** A leaf id outside the counter vector is not caught: the loop runs into
    the undefined access. *)
Lemma vote_loop_out_of_bounds t l : forall votes out,
  ~ in_bounds (Z.of_nat (length votes)) l ->
  vote_loop (length l) l t votes out = Undef.
Proof.
  induction l as [|x l IH]; intros votes out Hb; simpl.
  - exfalso. apply Hb. constructor.
  - destruct (decide (0 <= x)) as [Hx0|]; [|reflexivity].
    destruct (votes !! Z.to_nat x) as [c|] eqn:Hc; [|reflexivity].
    apply IH. rewrite length_insert. intros Hl. apply Hb.
    constructor; [|exact Hl].
    apply lookup_lt_Some in Hc. lia.
Qed.

Lemma voted_leaves_of_out_of_bounds l n t :
  n = Z.of_nat (length l) -> ~ in_bounds n l ->
  voted_leaves_of l n t = Undef.
Proof.
  intros -> Hb. unfold voted_leaves_of.
  destruct (decide (0 <= Z.of_nat (length l))); [|reflexivity].
  rewrite Nat2Z.id. apply vote_loop_out_of_bounds.
  rewrite length_replicate. exact Hb.
Qed.

Lemma filter_of_voted l n t voted :
  voted_leaves_of l n t = Ret voted ->
  filter_leaves_by_votes l n t = Ret (vector_to_nparray voted PyArray_INT).
Proof. intros H. unfold filter_leaves_by_votes. rewrite H. reflexivity. Qed.

(** ** The ranking order *)

Lemma key_le_spec a b :
  key_le a b <-> (a.1 < b.1)%Q \/ ((a.1 == b.1)%Q /\ a.2 <= b.2).
Proof.
  unfold key_le, key_leb.
  destruct (a.1 ?= b.1)%Q eqn:Hc.
  - apply Qeq_alt in Hc. rewrite bool_decide_eq_true. split.
    + intros H. right. split; assumption.
    + intros [H | [_ H]]; [|exact H]. rewrite Hc in H. apply Qlt_irrefl in H. contradiction.
  - apply Qlt_alt in Hc. split; [intros _; left; exact Hc | reflexivity].
  - apply Qgt_alt in Hc. split; [discriminate|].
    intros [H | [H _]].
    + exfalso. apply (Qlt_irrefl (a.1)). eapply Qlt_trans; eassumption.
    + rewrite H in Hc. apply Qlt_irrefl in Hc. contradiction.
Qed.

#[global] Instance key_le_total : Total key_le.
Proof.
  intros a b. rewrite !key_le_spec.
  destruct (Q_dec (a.1) (b.1)) as [[H | H] | H].
  - left. left. exact H.
  - right. left. exact H.
  - destruct (Z.le_ge_cases (a.2) (b.2)).
    + left. right. split; assumption.
    + right. right. split; [symmetry; exact H | assumption].
Qed.

#[global] Instance key_le_trans : Transitive key_le.
Proof.
  intros a b c. rewrite !key_le_spec.
  intros [H1 | [H1 H1']] [H2 | [H2 H2']].
  - left. eapply Qlt_trans; eassumption.
  - left. rewrite <- H2. exact H1.
  - left. rewrite H1. exact H2.
  - right. split; [rewrite H1; exact H2 | lia].
Qed.

Lemma key_le_lt a b : key_le a b -> a.2 <> b.2 -> key_lt a b.
Proof.
  rewrite key_le_spec. unfold key_lt. intros [H | [H H']] Hne; [left; exact H|].
  right. split; [exact H | lia].
Qed.

(** ** Selection of the nearest *)

Lemma sorted_keys_strict X q l :
  StronglySorted key_le (key X q <$> l) -> NoDup l ->
  StronglySorted (fun i j => key_lt (key X q i) (key X q j)) l.
Proof.
  induction l as [|i l IH]; simpl; intros Hs Hn; [constructor|].
  apply StronglySorted_inv in Hs as [Hs Hall].
  apply NoDup_cons in Hn as [Hi Hn].
  constructor; [apply IH; assumption|].
  apply Forall_forall. intros j Hj.
  rewrite Forall_forall in Hall.
  apply key_le_lt.
  - apply Hall. apply list_elem_of_fmap. exists j. split; [reflexivity | exact Hj].
  - simpl. intros ->. contradiction.
Qed.

Lemma key_indices X q l : (key X q <$> l).*2 = l.
Proof.
  induction l as [|i l IH]; [reflexivity|].
  rewrite !fmap_cons, IH. reflexivity.
Qed.

Lemma key_of_element X q (s : list (scalar * Z)) l :
  s ≡ₚ key X q <$> l -> Forall (fun x => x = key X q (x.2)) s.
Proof.
  intros Hp. rewrite Hp. apply Forall_forall. intros x Hx.
  apply list_elem_of_fmap in Hx as [i [-> _]]. reflexivity.
Qed.

Lemma keys_of_indices X q (s : list (scalar * Z)) l :
  s ≡ₚ key X q <$> l -> s = (key X q <$> s.*2).
Proof.
  intros Hp. pose proof (key_of_element X q s l Hp) as Hall.
  clear Hp. induction Hall as [|x s Hx _ IH]; [reflexivity|].
  rewrite !fmap_cons. congruence.
Qed.

Lemma select_knn_nearest X q k indices :
  0 <= k <= Z.of_nat (length indices) ->
  NoDup indices ->
  exists nearest,
    select_knn X q k indices = (key X q <$> nearest) /\
    k_nearest X q k indices nearest.
Proof.
  intros Hk Hnd. unfold select_knn.
  set (s := merge_sort key_le (key X q <$> indices)).
  assert (Hp : s ≡ₚ key X q <$> indices) by apply merge_sort_Permutation.
  assert (Hs : StronglySorted key_le s) by apply (StronglySorted_merge_sort key_le).
  assert (Hs2 : s.*2 ≡ₚ indices).
  { rewrite Hp, key_indices. reflexivity. }
  pose proof (keys_of_indices X q s indices Hp) as Hkeys.
  exists (take (Z.to_nat k) (s.*2)).
  assert (Hlen : length s = length indices).
  { rewrite Hp, length_fmap. reflexivity. }
  split.
  { rewrite fmap_take, <- Hkeys. reflexivity. }
  rewrite <- (take_drop (Z.to_nat k) s) in Hs.
  apply StronglySorted_app in Hs as (Hcross & Hst & Hsd).
  assert (Hnd2 : NoDup (s.*2)) by (rewrite Hs2; exact Hnd).
  repeat split.
  - rewrite length_take, length_fmap, Hlen. lia.
  - rewrite <- (take_drop (Z.to_nat k) (s.*2)) in Hnd2.
    apply NoDup_app in Hnd2 as [H _]. exact H.
  - intros i Hi. rewrite <- Hs2. exact (subseteq_take _ _ _ Hi).
  - apply sorted_keys_strict.
    + rewrite fmap_take, <- Hkeys. exact Hst.
    + rewrite <- (take_drop (Z.to_nat k) (s.*2)) in Hnd2.
      apply NoDup_app in Hnd2 as [H _]. exact H.
  - intros i j Hi Hj Hnj.
    apply key_le_lt; [|simpl; intros ->; contradiction].
    apply Hcross.
    + rewrite <- fmap_take in Hi.
      apply list_elem_of_fmap in Hi as [y [-> Hy]].
      pose proof (key_of_element X q s indices Hp) as Hall.
      rewrite Forall_forall in Hall.
      rewrite <- (Hall y (subseteq_take _ _ _ Hy)). exact Hy.
    + assert (Hjs : key X q j ∈ s).
      { rewrite Hp. apply list_elem_of_fmap. exists j. split; [reflexivity | exact Hj]. }
      rewrite <- (take_drop (Z.to_nat k) s) in Hjs.
      apply elem_of_app in Hjs as [Hjs | Hjs]; [|exact Hjs].
      exfalso. apply Hnj. rewrite <- fmap_take.
      apply list_elem_of_fmap. exists (key X q j). split; [reflexivity | exact Hjs].
Qed.

(** ** The query methods *)

Lemma key_dists X q l : (key X q <$> l).*1 = (fun i => sqdist (col X i) q) <$> l.
Proof.
  induction l as [|i l IH]; [reflexivity|].
  rewrite !fmap_cons, IH. reflexivity.
Qed.

Lemma elem_of_iota n i : i ∈ iota n <-> 0 <= i < n.
Proof.
  unfold iota. rewrite list_elem_of_fmap. split.
  - intros [j [-> Hj]]. apply elem_of_seq in Hj. lia.
  - intros Hi. exists (Z.to_nat i). split; [lia|]. apply elem_of_seq. lia.
Qed.

Lemma NoDup_iota n : NoDup (iota n).
Proof.
  unfold iota. apply NoDup_fmap_2; [|apply NoDup_seq].
  intros a b. apply Nat2Z.inj.
Qed.

Lemma length_iota n : length (iota n) = Z.to_nat n.
Proof. unfold iota. rewrite length_fmap, length_seq. reflexivity. Qed.

Lemma filled_exact {T} (junk : nat -> T) off (res : list T) :
  filled junk off (length res) res = Ret res.
Proof.
  unfold filled. destruct (decide (length res <= length res)%nat); [|lia].
  rewrite Nat.sub_diag. simpl. rewrite app_nil_r. reflexivity.
Qed.

Lemma filled_length {T} (junk : nat -> T) off k (res : list T) :
  length res = k -> filled junk off k res = Ret res.
Proof. intros <-. apply filled_exact. Qed.

Lemma filled_short {T} (junk : nat -> T) off k (res : list T) :
  (length res <= k)%nat ->
  filled junk off k res = Ret (res ++ (junk <$> seq (off + length res) (k - length res))).
Proof. intros H. unfold filled. destruct (decide (length res <= k)%nat); [reflexivity | lia]. Qed.

(** A query that the engine answers with [res], no longer than [k]. *)
Lemma run_queries_vec junk_i junk_d search q k return_distances res :
  0 <= k ->
  search q = Ret res ->
  (length res <= Z.to_nat k)%nat ->
  let pad := (Z.to_nat k - length res)%nat in
  let nearest := res.*2 ++ (junk_i <$> seq (length res) pad) in
  let distances := res.*1 ++ (junk_d <$> seq (length res) pad) in
  run_queries junk_i junk_d search (Vec q) k return_distances =
    Ret (if decide (return_distances = 0)
         then PyArr (mkArray PyArray_INT [Z.to_nat k] nearest)
         else PyTuple (mkArray PyArray_INT [Z.to_nat k] nearest)
                      (mkArray PyArray_FLOAT [Z.to_nat k] distances)).
Proof.
  intros Hk Hs Hlen pad nearest distances. unfold run_queries, one_query.
  destruct (decide (0 <= k)); [|lia].
  rewrite Hs. simpl.
  rewrite !filled_short by (rewrite length_fmap; exact Hlen).
  rewrite !length_fmap. simpl.
  destruct (decide (return_distances = 0)); reflexivity.
Qed.

(** A failure of the engine on the first query vector is the failure of
    the method. *)
Lemma run_queries_raise junk_i junk_d search v k return_distances e :
  0 <= k ->
  match v with
  | Vec q => search q = Raise e
  | Mat rows cols m => 1 <= rows /\ search (row m cols 0) = Raise e
  end ->
  run_queries junk_i junk_d search v k return_distances = Raise e.
Proof.
  intros Hk Hv. unfold run_queries, one_query.
  destruct (decide (0 <= k)); [|lia].
  destruct v as [q | rows cols m].
  - rewrite Hv. reflexivity.
  - destruct Hv as [Hr Hv].
    destruct (decide (0 <= rows)); [|lia].
    destruct (Z.to_nat rows) as [|rn] eqn:Hrn; [lia|].
    simpl. rewrite Hv. reflexivity.
Qed.

Lemma row_zero_length m cols rows :
  1 <= rows -> 0 <= cols -> Z.of_nat (length m) = rows * cols ->
  Z.of_nat (length (row m cols 0)) = cols.
Proof.
  intros Hr Hc Hm. unfold row. simpl. rewrite drop_0, length_take. nia.
Qed.

Lemma wrong_dimension_first f v :
  wrong_dimension f v ->
  match v with
  | Vec q => Z.of_nat (length q) <> view_dim (X f)
  | Mat rows cols m => 1 <= rows /\ Z.of_nat (length (row m cols 0)) <> view_dim (X f)
  end.
Proof.
  destruct v as [q | rows cols m]; simpl; [auto|].
  intros (Hr & Hc & Hm & Hd). split; [exact Hr|].
  rewrite (row_zero_length m cols rows) by assumption. exact Hd.
Qed.

Lemma density_ok_false d : ~ (0 < d <= 1)%Q -> density_ok d = false.
Proof.
  intros H. unfold density_ok.
  destruct (Qle_bool d 0) eqn:H0; [reflexivity|]. simpl.
  destruct (Qle_bool d 1) eqn:H1; [|reflexivity].
  exfalso. apply H. split.
  - apply Qnot_le_lt. intros Hle. apply Qle_bool_iff in Hle. congruence.
  - apply Qle_bool_iff. exact H1.
Qed.

Lemma Mrpt_ctor_invalid X n_trees depth density :
  n_trees <= 0 \/ depth < 0 \/ ~ (0 < density <= 1)%Q ->
  Mrpt_ctor X n_trees depth density = Raise InvalidParameter.
Proof.
  intros H. unfold Mrpt_ctor.
  destruct (decide (n_trees <= 0)); [reflexivity|].
  destruct (decide (depth < 0)); [reflexivity|].
  destruct H as [H | [H | H]]; [lia | lia |].
  rewrite (density_ok_false _ H). reflexivity.
Qed.

Lemma construct_invalid self data n dim depth n_trees density :
  n_trees <= 0 \/ depth < 0 \/ ~ (0 < density <= 1)%Q ->
  construct self data n dim depth n_trees density =
    (mkIndex (ptr self) (data_buf self) (use_mmap self) n dim, Raise InvalidParameter).
Proof. intros H. unfold construct. rewrite (Mrpt_ctor_invalid _ _ _ _ H). reflexivity. Qed.

(** The candidates ranked: fewer candidates than [k] are all selected. *)
Lemma select_knn_all X q k indices :
  Z.of_nat (length indices) <= k ->
  exists ranked,
    ranked ≡ₚ indices /\ select_knn X q k indices = (key X q <$> ranked).
Proof.
  intros Hk. unfold select_knn.
  set (s := merge_sort key_le (key X q <$> indices)).
  assert (Hp : s ≡ₚ key X q <$> indices) by apply merge_sort_Permutation.
  exists (s.*2). split.
  - rewrite Hp, key_indices. reflexivity.
  - rewrite take_ge.
    + apply (keys_of_indices X q s indices Hp).
    + rewrite Hp, length_fmap. lia.
Qed.

Lemma mapM_Ret {A B} (f : A -> outcome B) (g : A -> B) (l : list A) :
  (forall x, x ∈ l -> f x = Ret (g x)) -> mapM f l = Ret (g <$> l).
Proof.
  induction l as [|x l IH]; intros Hf; [reflexivity|].
  cbn [mapM]. rewrite (Hf x) by (left). rewrite fmap_cons.
  change (mapM f l) with (mapM f l) in *.
  assert (Hl : mapM f l = Ret (g <$> l)) by (apply IH; intros y Hy; apply Hf; right; exact Hy).
  simpl. simpl in Hl. rewrite Hl. reflexivity.
Qed.

Lemma row_length m cols rows i :
  0 <= cols -> Z.of_nat (length m) = rows * cols -> Z.of_nat i < rows ->
  Z.of_nat (length (row m cols i)) = cols.
Proof.
  intros Hc Hm Hi. unfold row. rewrite length_take, length_drop. nia.
Qed.

(** ** The codec *)

Lemma get_many_S {A} (get : reader A) count s :
  get_many get (S count) s =
    ('(x, s1) ← get s; '(xs, s2) ← get_many get count s1; Ret (x :: xs, s2)).
Proof. reflexivity. Qed.

Lemma outcome_bind_ret {A B} (a : A) (k : A -> outcome B) : (Ret a ≫= k) = k a.
Proof. reflexivity. Qed.

Lemma get_many_floats (p : list scalar) rest :
  get_many get_float (length p) ((FFloat <$> p) ++ rest) = Ret (p, rest).
Proof.
  induction p as [|x p IH]; [reflexivity|].
  rewrite fmap_cons. cbn [length app]. rewrite get_many_S.
  cbn [get_float]. rewrite outcome_bind_ret. cbv beta iota.
  rewrite IH. reflexivity.
Qed.

Lemma get_index_in_range n i s :
  0 <= i < n -> get_index n (FInt i :: s) = Ret (i, s).
Proof.
  intros Hi. unfold get_index. cbn [get_int]. rewrite outcome_bind_ret.
  destruct (decide (0 <= i < n)); [reflexivity | contradiction].
Qed.

Lemma get_many_indices n (idx : list Z) rest :
  Forall (fun i => 0 <= i < n) idx ->
  get_many (get_index n) (length idx) ((FInt <$> idx) ++ rest) = Ret (idx, rest).
Proof.
  induction 1 as [|i idx Hi _ IH]; [reflexivity|].
  rewrite fmap_cons. cbn [length app]. rewrite get_many_S.
  rewrite (get_index_in_range n i _ Hi), outcome_bind_ret. cbv beta iota.
  rewrite IH. reflexivity.
Qed.

Lemma decode_tree_leaf levels n dim s :
  decode_tree levels n dim (FInt 0 :: s) =
    ('(count, s2) ← get_int s;
     if decide (0 <= count) then
       '(point_indices, s3) ← get_many (get_index n) (Z.to_nat count) s2;
       Ret (Leaf point_indices, s3)
     else Raise CorruptData).
Proof. destruct levels; reflexivity. Qed.

Lemma decode_tree_internal levels n dim s :
  decode_tree (S levels) n dim (FInt 1 :: s) =
    ('(projection, s2) ← get_many get_float (Z.to_nat dim) s;
     '(split_value, s3) ← get_float s2;
     '(lchild, s4) ← decode_tree levels n dim s3;
     '(rchild, s5) ← decode_tree levels n dim s4;
     Ret (Internal projection split_value lchild rchild, s5)).
Proof. reflexivity. Qed.

Lemma decode_encode_tree n dim t : forall levels rest,
  tree_ok levels n dim t ->
  decode_tree levels n dim (encode_tree t ++ rest) = Ret (t, rest).
Proof.
  induction t as [projection split_value lchild IHl rchild IHr | point_indices];
    intros levels rest Hok.
  - destruct levels as [|levels]; cbn [tree_ok] in Hok; [contradiction|].
    destruct Hok as (Hlen & Hl & Hr).
    cbn [encode_tree]. rewrite <- app_comm_cons, decode_tree_internal.
    rewrite <- Hlen, <- app_assoc, get_many_floats, outcome_bind_ret. cbv beta iota.
    rewrite <- app_comm_cons. cbn [get_float]. rewrite outcome_bind_ret. cbv beta iota.
    rewrite <- app_assoc, (IHl levels _ Hl), outcome_bind_ret. cbv beta iota.
    rewrite (IHr levels _ Hr). reflexivity.
  - cbn [tree_ok] in Hok. cbn [encode_tree].
    rewrite <- !app_comm_cons, decode_tree_leaf.
    cbn [get_int]. rewrite outcome_bind_ret. cbv beta iota.
    destruct (decide (0 <= Z.of_nat (length point_indices))); [|lia].
    rewrite Nat2Z.id, (get_many_indices n point_indices rest Hok). reflexivity.
Qed.

Lemma decode_encode_trees levels n dim (ts : list TreeNode) rest :
  Forall (tree_ok levels n dim) ts ->
  get_many (decode_tree levels n dim) (length ts) (concat (encode_tree <$> ts) ++ rest)
    = Ret (ts, rest).
Proof.
  induction 1 as [|t ts Ht _ IH]; [reflexivity|].
  rewrite fmap_cons. cbn [length concat]. rewrite get_many_S.
  rewrite <- app_assoc, (decode_encode_tree n dim t levels _ Ht), outcome_bind_ret.
  cbv beta iota. rewrite IH. reflexivity.
Qed.

(** Decoding what was encoded gives the forest back. *)
Lemma decode_encode_forest f :
  forest_ok f -> decode_forest (X f) (encode_forest f) = Ret f.
Proof.
  destruct f as [X0 nt dp dn ts b]. unfold forest_ok. simpl.
  intros (-> & -> & Hd & Hdim & Hts).
  unfold decode_forest, encode_forest. simpl.
  destruct (decide (n_points X0 = n_points X0 /\ view_dim X0 = view_dim X0)) as [_|Hn];
    [|exfalso; apply Hn; split; reflexivity].
  simpl.
  destruct (decide (0 <= Z.of_nat (length ts) /\ 0 <= dp /\ 0 <= view_dim X0)) as [_|Hn];
    [|exfalso; apply Hn; lia].
  rewrite Nat2Z.id.
  rewrite <- (app_nil_r (concat (encode_tree <$> ts))).
  rewrite (decode_encode_trees _ _ _ ts [] Hts). reflexivity.
Qed.

Lemma Mrpt_save_load f f0 fn d :
  forest_ok f ->
  fn ∉ read_only d ->
  X f0 = X f ->
  exists d',
    Mrpt_save f fn d = (d', true) /\
    index_files d' !! fn = Some (encode_forest f) /\
    Mrpt_load f0 fn d' = (f, true).
Proof.
  intros Hok Hw HX.
  exists (mkDisk (data_files d) (<[fn := encode_forest f]> (index_files d)) (read_only d)).
  unfold Mrpt_save, Mrpt_load.
  destruct Hok as (Hb & Hrest). rewrite Hb.
  rewrite bool_decide_eq_true_2 by exact Hw. simpl.
  rewrite lookup_insert_eq.
  split; [reflexivity|]. split; [reflexivity|].
  rewrite HX, decode_encode_forest by (split; assumption). reflexivity.
Qed.

(** ** The vote filter: properties *)

(** C9.  When the input array has exactly [num_leaves] entries and every
    leaf id lies in [[0, num_leaves)], the counter accesses stay in bounds,
    the call returns normally, and every element of the candidate list is an
    element of the input. *)
Theorem filter_in_bounds_returns (l : list Z) (num_leaves votes_required : Z) :
  num_leaves = Z.of_nat (length l) ->
  is_int num_leaves ->
  in_bounds num_leaves l ->
  exists voted,
    voted_leaves_of l num_leaves votes_required = Ret voted /\
    filter_leaves_by_votes l num_leaves votes_required
      = Ret (vector_to_nparray voted PyArray_INT) /\
    forall y, In y voted -> In y l.
Proof.
  intros Hn Hi Hb. exists (reached votes_required [] l).
  pose proof (voted_leaves_of_reached l num_leaves votes_required Hn Hi Hb) as Hv.
  split; [exact Hv|]. split; [apply filter_of_voted; exact Hv|].
  intros y. apply reached_In.
Qed.

Lemma filter_in_bounds_returns_witness :
  exists voted,
    voted_leaves_of [2; 0; 2; 1] 4 2 = Ret voted /\
    filter_leaves_by_votes [2; 0; 2; 1] 4 2 = Ret (vector_to_nparray voted PyArray_INT) /\
    forall y, In y voted -> In y [2; 0; 2; 1].
Proof.
  apply (filter_in_bounds_returns [2; 0; 2; 1] 4 2).
  - reflexivity.
  - unfold is_int, INT_MIN, INT_MAX. lia.
  - unfold in_bounds. repeat constructor; lia.
Defined.

(** C4 as stated fails: it speaks of every input vote sequence, and for
    the two votes for the index 7, which reaches the threshold 2 at its
    second vote, the filter runs outside its counter vector of two cells
    and produces no candidate list. *)
Lemma out_of_range_vote_is_not_counted :
  reached 2 [] [7; 7] = [7] /\
  filter_leaves_by_votes [7; 7] 2 2 = Undef /\
  ~ (exists voted, voted_leaves_of [7; 7] 2 2 = Ret voted /\ NoDup voted).
Proof.
  split; [reflexivity|]. split; [reflexivity|].
  intros [voted [Hv _]]. vm_compute in Hv. discriminate.
Qed.

(** C4, amended.  When the array holds [num_leaves] ids, all of them in
    [[0, num_leaves)], then for a threshold of at least 1 every index occurs
    at most once in the candidate list: the list is exactly the sequence of
    entries at which the running count equals the threshold, an index is
    listed if and only if its total count reaches the threshold, and the
    result is a function of the three inputs. *)
Theorem filter_lists_each_index_once (l : list Z) (num_leaves votes_required : Z) :
  num_leaves = Z.of_nat (length l) ->
  is_int num_leaves ->
  in_bounds num_leaves l ->
  1 <= votes_required ->
  exists voted,
    voted_leaves_of l num_leaves votes_required = Ret voted /\
    voted = reached votes_required [] l /\
    NoDup voted /\
    (forall y, In y voted <-> votes_required <= occ y l) /\
    (forall r, voted_leaves_of l num_leaves votes_required = Ret r -> r = voted).
Proof.
  intros Hn Hi Hb Ht. exists (reached votes_required [] l).
  pose proof (voted_leaves_of_reached l num_leaves votes_required Hn Hi Hb) as Hv.
  split; [exact Hv|]. split; [reflexivity|].
  split; [apply reached_NoDup; exact Ht|]. split.
  - intros y. rewrite reached_iff by exact Ht. simpl. lia.
  - intros r Hr. rewrite Hv in Hr. injection Hr as <-. reflexivity.
Qed.

Lemma filter_lists_each_index_once_witness :
  exists voted,
    voted_leaves_of [1; 0; 1; 1; 0] 5 2 = Ret voted /\
    voted = reached 2 [] [1; 0; 1; 1; 0] /\
    NoDup voted /\
    (forall y, In y voted <-> 2 <= occ y [1; 0; 1; 1; 0]) /\
    (forall r, voted_leaves_of [1; 0; 1; 1; 0] 5 2 = Ret r -> r = voted).
Proof.
  apply (filter_lists_each_index_once [1; 0; 1; 1; 0] 5 2).
  - reflexivity.
  - unfold is_int, INT_MIN, INT_MAX. lia.
  - unfold in_bounds. repeat constructor; lia.
  - lia.
Defined.

(** C3 as stated fails: with a threshold of 0 the index 0 appears in the
    input and is not a candidate. *)
Lemma threshold_zero_drops_index :
  voted_leaves_of [0] 1 0 = Ret [] /\
  ~ (exists voted, voted_leaves_of [0] 1 0 = Ret voted /\
       forall y, In y [0] -> In y voted).
Proof.
  split; [reflexivity|].
  intros [voted [Hv Hall]]. vm_compute in Hv. injection Hv as <-.
  apply (Hall 0). left. reflexivity.
Qed.

(** C3, amended.  With a threshold of exactly 1 the candidates are the
    indices that appear in the input; with a threshold of 0 or less the
    candidate list is empty. *)
Theorem threshold_one_keeps_every_index (l : list Z) (num_leaves votes_required : Z) :
  num_leaves = Z.of_nat (length l) ->
  is_int num_leaves ->
  in_bounds num_leaves l ->
  (votes_required = 1 ->
     exists voted, voted_leaves_of l num_leaves votes_required = Ret voted /\
       forall y, In y l <-> In y voted) /\
  (votes_required <= 0 ->
     voted_leaves_of l num_leaves votes_required = Ret []).
Proof.
  intros Hn Hi Hb.
  pose proof (voted_leaves_of_reached l num_leaves votes_required Hn Hi Hb) as Hv.
  split.
  - intros ->. exists (reached 1 [] l). split; [exact Hv|].
    intros y. rewrite reached_iff by lia. simpl.
    rewrite <- occ_pos_iff. lia.
  - intros Ht. rewrite Hv, reached_nonpos by exact Ht. reflexivity.
Qed.

Lemma threshold_one_keeps_every_index_witness :
  (1 = 1 ->
     exists voted, voted_leaves_of [1; 1; 0] 3 1 = Ret voted /\
       forall y, In y [1; 1; 0] <-> In y voted) /\
  (1 <= 0 -> voted_leaves_of [1; 1; 0] 3 1 = Ret []).
Proof.
  apply (threshold_one_keeps_every_index [1; 1; 0] 3 1).
  - reflexivity.
  - unfold is_int, INT_MIN, INT_MAX. lia.
  - unfold in_bounds. repeat constructor; lia.
Defined.

(** C2 as stated fails: raising the threshold from 0 to 1 on the input
    [[0]] enlarges the candidate list from no entry to one. *)
Lemma threshold_zero_to_one_grows :
  voted_leaves_of [0] 1 0 = Ret [] /\
  voted_leaves_of [0] 1 1 = Ret [0] /\
  0 < 1 /\
  ~ (length [0] <= length (@nil Z))%nat.
Proof. repeat split; simpl; lia. Qed.

(** C2, amended.  For thresholds [1 <= t1 < t2] the candidate list for
    [t2] is no longer than the one for [t1]. *)
Theorem vote_threshold_monotone (l : list Z) (num_leaves t1 t2 : Z) :
  num_leaves = Z.of_nat (length l) ->
  is_int num_leaves ->
  in_bounds num_leaves l ->
  1 <= t1 -> t1 < t2 ->
  exists voted1 voted2,
    voted_leaves_of l num_leaves t1 = Ret voted1 /\
    voted_leaves_of l num_leaves t2 = Ret voted2 /\
    (length voted2 <= length voted1)%nat.
Proof.
  intros Hn Hi Hb H1 H12.
  exists (reached t1 [] l), (reached t2 [] l).
  split; [apply voted_leaves_of_reached; assumption|].
  split; [apply voted_leaves_of_reached; assumption|].
  apply NoDup_incl_length.
  - apply NoDup_ListNoDup, reached_NoDup. lia.
  - intros y. rewrite !reached_iff by lia. simpl. lia.
Qed.

Lemma vote_threshold_monotone_witness :
  exists voted1 voted2,
    voted_leaves_of [0; 1; 0; 2; 1; 0] 6 2 = Ret voted1 /\
    voted_leaves_of [0; 1; 0; 2; 1; 0] 6 3 = Ret voted2 /\
    (length voted2 <= length voted1)%nat.
Proof.
  apply (vote_threshold_monotone [0; 1; 0; 2; 1; 0] 6 2 3).
  - reflexivity.
  - unfold is_int, INT_MIN, INT_MAX. lia.
  - unfold in_bounds. repeat constructor; lia.
  - lia.
  - lia.
Defined.

(** C10.  An empty vector is converted to a length-0 array of type
    [PyArray_FLOAT] whatever element type was requested; so the vote filter
    returns a float-typed empty array when there is no candidate and an
    int-typed array otherwise. *)
Theorem empty_result_is_float_typed (T : Type) (type_num : npy_type)
    (l : list Z) (num_leaves votes_required : Z) :
  vector_to_nparray (@nil T) type_num = mkArray PyArray_FLOAT [0%nat] [] /\
  (voted_leaves_of l num_leaves votes_required = Ret [] ->
     filter_leaves_by_votes l num_leaves votes_required
       = Ret (mkArray PyArray_FLOAT [0%nat] [])) /\
  (forall x voted,
     voted_leaves_of l num_leaves votes_required = Ret (x :: voted) ->
     filter_leaves_by_votes l num_leaves votes_required
       = Ret (mkArray PyArray_INT [length (x :: voted)] (x :: voted))).
Proof.
  split; [reflexivity|]. split.
  - intros H. rewrite (filter_of_voted _ _ _ _ H). reflexivity.
  - intros x voted H. rewrite (filter_of_voted _ _ _ _ H). reflexivity.
Qed.

Lemma empty_result_is_float_typed_witness :
  vector_to_nparray (@nil Z) PyArray_INT = mkArray PyArray_FLOAT [0%nat] [] /\
  filter_leaves_by_votes [0; 1] 2 2 = Ret (mkArray PyArray_FLOAT [0%nat] []) /\
  filter_leaves_by_votes [0; 0] 2 2 = Ret (mkArray PyArray_INT [1%nat] [0]).
Proof.
  split; [reflexivity|]. split.
  - apply (empty_result_is_float_typed Z PyArray_INT [0; 1] 2 2). reflexivity.
  - apply (proj2 (proj2 (empty_result_is_float_typed Z PyArray_INT [0; 0] 2 2)) 0 []).
    reflexivity.
Defined.

(** ** The exact query *)

(** C1.  For a query vector of the index's dimensionality and
    [1 <= k <= n], [exact_search] returns [k] distinct point indices, in
    strictly ascending order of (squared distance, index), and every point
    that is not returned comes strictly after every returned one in that
    order; the distance array, when asked for, holds the squared distances
    of the returned points. *)
Theorem exact_search_returns_k_nearest (junk_i : nat -> Z) (junk_d : nat -> scalar)
    (self : mrptIndex) (f : Mrpt) (q : list scalar) (k return_distances : Z) :
  ptr self = Some f ->
  Z.of_nat (length q) = view_dim (X f) ->
  1 <= k <= n self ->
  exists nearest,
    exact_search junk_i junk_d self (Vec q) k return_distances =
      Ret (if decide (return_distances = 0)
           then PyArr (mkArray PyArray_INT [Z.to_nat k] nearest)
           else PyTuple (mkArray PyArray_INT [Z.to_nat k] nearest)
                  (mkArray PyArray_FLOAT [Z.to_nat k]
                     ((fun i => sqdist (col (X f) i) q) <$> nearest))) /\
    Z.of_nat (length nearest) = k /\
    NoDup nearest /\
    (forall i, i ∈ nearest -> 0 <= i < n self) /\
    StronglySorted (fun i j => key_lt (key (X f) q i) (key (X f) q j)) nearest /\
    (forall i j, i ∈ nearest -> 0 <= j < n self -> j ∉ nearest ->
       key_lt (key (X f) q i) (key (X f) q j)).
Proof.
  intros Hp Hq Hk.
  destruct (select_knn_nearest (X f) q k (iota (n self))) as [nearest [Hsel Hn]].
  { rewrite length_iota. lia. }
  { apply NoDup_iota. }
  destruct Hn as (Hlen & Hnd & Hin & Hsorted & Hbest).
  exists nearest. split.
  - unfold exact_search. rewrite Hp.
    destruct (decide (0 <= n self)); [|lia].
    rewrite (run_queries_vec junk_i junk_d _ q k return_distances
               (key (X f) q <$> nearest)).
    + rewrite length_fmap, key_indices, key_dists.
      replace (Z.to_nat k - length nearest)%nat with 0%nat by lia.
      simpl. rewrite !app_nil_r. reflexivity.
    + lia.
    + unfold exact_knn. destruct (decide (Z.of_nat (length q) = view_dim (X f))); [|contradiction].
      rewrite Hsel. reflexivity.
    + rewrite length_fmap. lia.
  - split; [exact Hlen|]. split; [exact Hnd|]. split.
    + intros i Hi. apply elem_of_iota. apply Hin. exact Hi.
    + split; [exact Hsorted|].
      intros i j Hi Hj Hnj. apply Hbest; [exact Hi | apply elem_of_iota; exact Hj | exact Hnj].
Qed.

Lemma exact_search_returns_k_nearest_witness :
  exists nearest,
    exact_search (fun _ => 0) (fun _ => 0%Q) square_index (Vec [1; 0]%Q) 2 1 =
      Ret (if decide (1 = 0)
           then PyArr (mkArray PyArray_INT [Z.to_nat 2] nearest)
           else PyTuple (mkArray PyArray_INT [Z.to_nat 2] nearest)
                  (mkArray PyArray_FLOAT [Z.to_nat 2]
                     ((fun i => sqdist (col (X square_forest) i) [1; 0]%Q) <$> nearest))) /\
    Z.of_nat (length nearest) = 2 /\
    NoDup nearest /\
    (forall i, i ∈ nearest -> 0 <= i < n square_index) /\
    StronglySorted
      (fun i j => key_lt (key (X square_forest) [1; 0]%Q i) (key (X square_forest) [1; 0]%Q j))
      nearest /\
    (forall i j, i ∈ nearest -> 0 <= j < n square_index -> j ∉ nearest ->
       key_lt (key (X square_forest) [1; 0]%Q i) (key (X square_forest) [1; 0]%Q j)).
Proof.
  apply (exact_search_returns_k_nearest (fun _ => 0) (fun _ => 0%Q)
           square_index square_forest [1; 0]%Q 2 1).
  - reflexivity.
  - reflexivity.
  - simpl. lia.
Defined.

(** The scenario of the specification: at the corner (1, 0) the nearest
    point is the corner itself, at distance 0; the two corners at distance
    1 follow in the order of their indices. *)
Example exact_search_square :
  exact_search (fun _ => 0) (fun _ => 0%Q) square_index (Vec [1; 0]%Q) 3 1 =
    Ret (PyTuple (mkArray PyArray_INT [3%nat] [1; 0; 3])
                 (mkArray PyArray_FLOAT [3%nat] [0; 1; 1]%Q)).
Proof. vm_compute. reflexivity. Qed.

(** ** Queries of the wrong dimensionality *)

(** C6.  On a built index, a query array whose vectors do not have the
    dimensionality of the index makes both [ann] and [exact_search] fail
    with [DimensionMismatch]; no array is returned. *)
Theorem wrong_dimension_fails (junk_i : nat -> Z) (junk_d : nat -> scalar)
    (self : mrptIndex) (f : Mrpt) (v : QueryArray) (k elect return_distances : Z) :
  ptr self = Some f ->
  built f = true ->
  0 <= n self ->
  0 <= k ->
  wrong_dimension f v ->
  ann junk_i junk_d self v k elect return_distances = Raise DimensionMismatch /\
  exact_search junk_i junk_d self v k return_distances = Raise DimensionMismatch.
Proof.
  intros Hp Hb Hn Hk Hv. apply wrong_dimension_first in Hv.
  unfold ann, exact_search. rewrite Hp.
  destruct (decide (0 <= n self)); [|lia].
  split; apply run_queries_raise; try exact Hk.
  - unfold query, query_from_leaves. rewrite Hb.
    destruct v as [q | rows cols m].
    + destruct (decide (Z.of_nat (length q) = view_dim (X f))); [contradiction | reflexivity].
    + destruct Hv as [Hr Hd]. split; [exact Hr|].
      destruct (decide (Z.of_nat (length (row m cols 0)) = view_dim (X f)));
        [contradiction | reflexivity].
  - unfold exact_knn.
    destruct v as [q | rows cols m].
    + destruct (decide (Z.of_nat (length q) = view_dim (X f))); [contradiction | reflexivity].
    + destruct Hv as [Hr Hd]. split; [exact Hr|].
      destruct (decide (Z.of_nat (length (row m cols 0)) = view_dim (X f)));
        [contradiction | reflexivity].
Qed.

Lemma wrong_dimension_fails_witness :
  ann (fun _ => 0) (fun _ => 0%Q) square_index (Vec [1; 0; 3]%Q) 2 1 1
    = Raise DimensionMismatch /\
  exact_search (fun _ => 0) (fun _ => 0%Q) square_index (Vec [1; 0; 3]%Q) 2 1
    = Raise DimensionMismatch.
Proof.
  apply (wrong_dimension_fails (fun _ => 0) (fun _ => 0%Q)
           square_index square_forest (Vec [1; 0; 3]%Q) 2 1 1).
  - reflexivity.
  - reflexivity.
  - simpl. lia.
  - lia.
  - simpl. lia.
Defined.

(** ** Fewer candidates than [k] *)

(** C5 as stated fails: the query at (1, 0) with [k = 3] and a threshold of
    1 has the two candidates 1 and 3, and the arrays returned have three
    entries; the third is what the fresh arrays held. *)
Lemma short_candidate_set_has_padding :
  candidate_set (get_leaf_indices square_forest [1; 0]%Q) 1 = [1; 3] /\
  ann (fun _ => -7) (fun _ => 99%Q) square_index (Vec [1; 0]%Q) 3 1 1 =
    Ret (PyTuple (mkArray PyArray_INT [3%nat] [1; 3; -7])
                 (mkArray PyArray_FLOAT [3%nat] [0; 1; 99]%Q)) /\
  ann_from_leaves (fun _ => -7) (fun _ => 99%Q) square_index [1; 0]%Q [1; 3] 2 3 1 0 =
    Ret (PyArr (mkArray PyArray_INT [3%nat] [1; 3; -7])) /\
  [1; 3; -7] <> [1; 3].
Proof. repeat split; try (vm_compute; reflexivity). discriminate. Qed.

(** What [query_from_leaves] gives the binding when the candidates are
    fewer than [k]: all of them, ranked. *)
Lemma query_from_leaves_short f q leaves k elect :
  built f = true ->
  Z.of_nat (length q) = view_dim (X f) ->
  Z.of_nat (length (candidate_set leaves elect)) < k ->
  exists ranked,
    ranked ≡ₚ candidate_set leaves elect /\
    query_from_leaves f q leaves k elect = Ret (key (X f) q <$> ranked).
Proof.
  intros Hb Hq Hk.
  destruct (select_knn_all (X f) q k (candidate_set leaves elect)) as [ranked [Hp Hsel]]; [lia|].
  exists ranked. split; [exact Hp|].
  unfold query_from_leaves. rewrite Hb.
  destruct (decide (Z.of_nat (length q) = view_dim (X f))); [|contradiction].
  rewrite Hsel. reflexivity.
Qed.

(** C5, amended.  The arrays returned by an approximate query always have
    [k] entries and no error is raised: when the candidate set has fewer
    than [k] members, the candidates, ranked, come first and the remaining
    entries are the uninitialised cells of the fresh arrays. *)
Theorem short_candidate_set_is_padded (junk_i : nat -> Z) (junk_d : nat -> scalar)
    (self : mrptIndex) (f : Mrpt) (q : list scalar) (k elect return_distances : Z) :
  ptr self = Some f ->
  built f = true ->
  Z.of_nat (length q) = view_dim (X f) ->
  Z.of_nat (length (candidate_set (get_leaf_indices f q) elect)) < k ->
  exists ranked,
    ranked ≡ₚ candidate_set (get_leaf_indices f q) elect /\
    let pad := (Z.to_nat k - length ranked)%nat in
    let nearest := ranked ++ (junk_i <$> seq (length ranked) pad) in
    let distances := ((fun i => sqdist (col (X f) i) q) <$> ranked)
                       ++ (junk_d <$> seq (length ranked) pad) in
    (0 < pad)%nat /\
    length nearest = Z.to_nat k /\
    ann junk_i junk_d self (Vec q) k elect return_distances =
      Ret (if decide (return_distances = 0)
           then PyArr (mkArray PyArray_INT [Z.to_nat k] nearest)
           else PyTuple (mkArray PyArray_INT [Z.to_nat k] nearest)
                        (mkArray PyArray_FLOAT [Z.to_nat k] distances)).
Proof.
  intros Hp Hb Hq Hk.
  destruct (query_from_leaves_short f q (get_leaf_indices f q) k elect Hb Hq Hk)
    as [ranked [Hperm Hres]].
  assert (Hlen : length ranked = length (candidate_set (get_leaf_indices f q) elect))
    by (rewrite Hperm; reflexivity).
  exists ranked. split; [exact Hperm|]. simpl.
  split; [lia|]. split.
  { rewrite length_app, length_fmap, length_seq. lia. }
  unfold ann. rewrite Hp.
  rewrite (run_queries_vec junk_i junk_d _ q k return_distances (key (X f) q <$> ranked)).
  - rewrite length_fmap, key_indices, key_dists. reflexivity.
  - lia.
  - exact Hres.
  - rewrite length_fmap. lia.
Qed.

Lemma short_candidate_set_is_padded_witness :
  exists ranked,
    ranked ≡ₚ candidate_set (get_leaf_indices square_forest [1; 0]%Q) 1 /\
    let pad := (Z.to_nat 3 - length ranked)%nat in
    let nearest := ranked ++ ((fun _ => -7) <$> seq (length ranked) pad) in
    let distances := ((fun i => sqdist (col (X square_forest) i) [1; 0]%Q) <$> ranked)
                       ++ ((fun _ => 99%Q) <$> seq (length ranked) pad) in
    (0 < pad)%nat /\
    length nearest = Z.to_nat 3 /\
    ann (fun _ => -7) (fun _ => 99%Q) square_index (Vec [1; 0]%Q) 3 1 0 =
      Ret (if decide (0 = 0)
           then PyArr (mkArray PyArray_INT [Z.to_nat 3] nearest)
           else PyTuple (mkArray PyArray_INT [Z.to_nat 3] nearest)
                        (mkArray PyArray_FLOAT [Z.to_nat 3] distances)).
Proof.
  apply (short_candidate_set_is_padded (fun _ => -7) (fun _ => 99%Q)
           square_index square_forest [1; 0]%Q 3 1 0).
  - reflexivity.
  - reflexivity.
  - reflexivity.
  - vm_compute. reflexivity.
Defined.

(** The same holds for [ann_from_leaves], whose votes are the caller's. *)
Lemma ann_from_leaves_padded (junk_i : nat -> Z) (junk_d : nat -> scalar)
    (self : mrptIndex) (f : Mrpt) (q : list scalar) (l : list Z)
    (k elect return_distances : Z) :
  ptr self = Some f ->
  built f = true ->
  Z.of_nat (length q) = view_dim (X f) ->
  Z.of_nat (length (candidate_set l elect)) < k ->
  exists ranked,
    ranked ≡ₚ candidate_set l elect /\
    let pad := (Z.to_nat k - length ranked)%nat in
    let nearest := ranked ++ (junk_i <$> seq (length ranked) pad) in
    let distances := ((fun i => sqdist (col (X f) i) q) <$> ranked)
                       ++ (junk_d <$> seq (length ranked) pad) in
    ann_from_leaves junk_i junk_d self q l (Z.of_nat (length l)) k elect return_distances =
      Ret (if decide (return_distances = 0)
           then PyArr (mkArray PyArray_INT [Z.to_nat k] nearest)
           else PyTuple (mkArray PyArray_INT [Z.to_nat k] nearest)
                        (mkArray PyArray_FLOAT [Z.to_nat k] distances)).
Proof.
  intros Hp Hb Hq Hk.
  destruct (query_from_leaves_short f q l k elect Hb Hq Hk) as [ranked [Hperm Hres]].
  assert (Hlen : length ranked = length (candidate_set l elect))
    by (rewrite Hperm; reflexivity).
  exists ranked. split; [exact Hperm|]. simpl.
  unfold ann_from_leaves. rewrite Hp.
  destruct (decide (0 <= Z.of_nat (length l) <= Z.of_nat (length l))); [|lia].
  rewrite Nat2Z.id, firstn_all.
  rewrite (run_queries_vec junk_i junk_d _ q k return_distances (key (X f) q <$> ranked)).
  - rewrite length_fmap, key_indices, key_dists. reflexivity.
  - lia.
  - exact Hres.
  - rewrite length_fmap. lia.
Qed.

(** For a batch of query vectors [exact_search] answers row by row: the
    index array is [rows] by [k], and row [i] holds the [k] nearest points
    of the query vector [i]. *)
Lemma exact_search_batch (junk_i : nat -> Z) (junk_d : nat -> scalar)
    (self : mrptIndex) (f : Mrpt) (rows cols : Z) (m : list scalar)
    (k return_distances : Z) :
  ptr self = Some f ->
  cols = view_dim (X f) -> 0 <= cols -> 0 <= rows ->
  Z.of_nat (length m) = rows * cols ->
  1 <= k <= n self ->
  let answer := fun i : nat => select_knn (X f) (row m cols i) k (iota (n self)) in
  let answers := answer <$> seq 0 (Z.to_nat rows) in
  exact_search junk_i junk_d self (Mat rows cols m) k return_distances =
    Ret (if decide (return_distances = 0)
         then PyArr (mkArray PyArray_INT [Z.to_nat rows; Z.to_nat k]
                       (concat ((fun a => a.*2) <$> answers)))
         else PyTuple (mkArray PyArray_INT [Z.to_nat rows; Z.to_nat k]
                         (concat ((fun a => a.*2) <$> answers)))
                      (mkArray PyArray_FLOAT [Z.to_nat rows; Z.to_nat k]
                         (concat ((fun a => a.*1) <$> answers)))) /\
  (forall i : nat, Z.of_nat i < rows ->
     k_nearest (X f) (row m cols i) k (iota (n self)) ((answer i).*2)).
Proof.
  intros Hp Hcols Hc Hr Hm Hk answer answers.
  assert (Hsel : forall i : nat, Z.of_nat i < rows ->
            exists nearest, answer i = (key (X f) (row m cols i) <$> nearest) /\
              k_nearest (X f) (row m cols i) k (iota (n self)) nearest).
  { intros i Hi. apply select_knn_nearest; [rewrite length_iota; lia | apply NoDup_iota]. }
  split.
  - unfold exact_search. rewrite Hp.
    destruct (decide (0 <= n self)); [|lia].
    unfold run_queries.
    destruct (decide (0 <= k)); [|lia].
    destruct (decide (0 <= rows)); [|lia].
    rewrite (mapM_Ret _ (fun i => ((answer i).*2, (answer i).*1))).
    + simpl.
      replace (concat ((fun i => ((answer i).*2, (answer i).*1)) <$> seq 0 (Z.to_nat rows)).*1)
        with (concat ((fun a => a.*2) <$> answers)).
      2:{ unfold answers. rewrite <- !list_fmap_compose. reflexivity. }
      replace (concat ((fun i => ((answer i).*2, (answer i).*1)) <$> seq 0 (Z.to_nat rows)).*2)
        with (concat ((fun a => a.*1) <$> answers)).
      2:{ unfold answers. rewrite <- !list_fmap_compose. reflexivity. }
      destruct (decide (return_distances = 0)); reflexivity.
    + intros i Hi. apply elem_of_seq in Hi.
      destruct (Hsel i) as [nearest [Ha Hn]]; [lia|].
      destruct Hn as (Hlen & _).
      unfold one_query, exact_knn.
      rewrite (row_length m cols rows i) by lia.
      destruct (decide (cols = view_dim (X f))); [|contradiction].
      simpl. fold (answer i).
      assert (Hl : length (answer i) = Z.to_nat k).
      { rewrite Ha, length_fmap. lia. }
      rewrite !filled_length by (rewrite length_fmap; exact Hl). reflexivity.
  - intros i Hi. destruct (Hsel i Hi) as [nearest [Ha Hn]].
    rewrite Ha, key_indices. exact Hn.
Qed.

(** ** Construction *)

(** C7 as stated fails: with [n_trees = 0] and a data file that does not
    exist, [Mrpt_init] fails with [IOError], not with
    [InvalidParameter]: the file is looked at first. *)
Lemma missing_file_comes_first :
  Mrpt_init (mkDisk ∅ ∅ ∅) Mrpt_new (PyString "points.bin") 4 2 1 0 1%Q 0
    = (Mrpt_new, Raise PyExc_IOError) /\
  @Raise Z PyExc_IOError <> Raise InvalidParameter.
Proof. split; [reflexivity | discriminate]. Qed.

Lemma wrap32_decompose z : exists q, z = 2 ^ 32 * q + wrap32 z.
Proof.
  unfold wrap32. exists ((z + 2 ^ 31) / 2 ^ 32).
  pose proof (Z.div_mod (z + 2 ^ 31) (2 ^ 32) ltac:(lia)). lia.
Qed.

(** A file that passes the size check and holds at least [n * dim] floats
    holds exactly that many. *)
Lemma size_matches_exact content np nd :
  size_matches content np nd ->
  0 <= wrap32 (np * nd) <= Z.of_nat (length content) ->
  Z.of_nat (length content) = wrap32 (np * nd).
Proof.
  unfold size_matches. intros Hsz Hc.
  destruct (wrap32_decompose (np * nd)) as [q Hq].
  assert (Hmod : (4 * nd * np) mod 2 ^ 32 = (4 * wrap32 (np * nd)) mod 2 ^ 32).
  { replace (4 * nd * np) with (4 * wrap32 (np * nd) + (4 * q) * 2 ^ 32) by lia.
    apply Z_mod_plus_full. }
  pose proof (Z.mod_le (4 * wrap32 (np * nd)) (2 ^ 32) ltac:(lia) ltac:(lia)).
  lia.
Qed.

(** C7, amended.  With [n_trees <= 0], [depth < 0] or a density outside
    (0, 1], [Mrpt_init] never succeeds and leaves [self->ptr] as it was.
    With the data passed as an array the error is [InvalidParameter].
    With a file name the file comes first: a missing file is an
    [IOError]; a file that fails the size check is a [ValueError]; a file
    that passes it and is read is followed by [InvalidParameter]; a file
    that passes it and is not read is an [IOError], or is undefined when
    [read_memory] is asked for a negative number of floats. *)
Theorem invalid_parameters_rejected (d : Disk) (self : mrptIndex) (py_data : PyData)
    (np nd depth n_trees : Z) (density : scalar) (mmap : Z) :
  n_trees <= 0 \/ depth < 0 \/ ~ (0 < density <= 1)%Q ->
  exists self' r,
    Mrpt_init d self py_data np nd depth n_trees density mmap = (self', r) /\
    ptr self' = ptr self /\
    returns r = false /\
    match py_data with
    | PyArrayData _ => r = Raise InvalidParameter
    | PyString file =>
      match data_files d !! file with
      | None => r = Raise PyExc_IOError
      | Some content =>
        (~ size_matches content np nd -> r = Raise PyExc_ValueError) /\
        (size_matches content np nd -> file_is_read content np nd mmap ->
           r = Raise InvalidParameter) /\
        (size_matches content np nd -> ~ file_is_read content np nd mmap ->
           if decide (mmap = 0 /\ wrap32 (np * nd) < 0) then r = Undef
           else r = Raise PyExc_IOError)
      end
    end.
Proof.
  intros Hbad. destruct py_data as [file | a]; simpl.
  2:{ rewrite construct_invalid by exact Hbad.
      eexists _, _. split; [reflexivity|]. repeat split. }
  destruct (data_files d !! file) as [content|] eqn:Hf.
  2:{ exists self, (Raise PyExc_IOError). repeat split. }
  unfold size_matches, file_is_read.
  destruct (decide (4 * Z.of_nat (length content) = (4 * nd * np) mod 2 ^ 32)) as [Hsz|Hsz].
  2:{ exists self, (Raise PyExc_ValueError).
      split; [reflexivity|]. split; [reflexivity|]. split; [reflexivity|].
      split; [reflexivity|]. split; intros; contradiction. }
  destruct (decide (mmap = 0)) as [Hm|Hm].
  - unfold read_memory. rewrite Hf.
    destruct (decide (0 <= wrap32 (np * nd))) as [Hc|Hc].
    + destruct (decide (Z.of_nat (length (take (Z.to_nat (wrap32 (np * nd))) content))
                        = wrap32 (np * nd))) as [Hg|Hg].
      * rewrite construct_invalid by exact Hbad.
        eexists _, _. split; [reflexivity|]. split; [reflexivity|]. split; [reflexivity|].
        split; [intros; contradiction|]. split; [reflexivity|].
        intros _ Hnot. exfalso. apply Hnot.
        apply size_matches_exact; [exact Hsz|].
        rewrite length_take in Hg. lia.
      * exists self, (Raise PyExc_IOError).
        split; [reflexivity|]. split; [reflexivity|]. split; [reflexivity|].
        split; [intros; contradiction|]. split.
        -- intros _ Hlen. exfalso. apply Hg. rewrite length_take. lia.
        -- intros _ _. destruct (decide (mmap = 0 /\ wrap32 (np * nd) < 0)); [lia | reflexivity].
    + exists self, Undef.
      split; [reflexivity|]. split; [reflexivity|]. split; [reflexivity|].
      split; [intros; contradiction|]. split.
      * intros _ Hlen. lia.
      * intros _ _. destruct (decide (mmap = 0 /\ wrap32 (np * nd) < 0)) as [|Hn];
          [reflexivity | exfalso; apply Hn; lia].
  - unfold read_mmap. rewrite Hf.
    destruct (decide (wrap32 (np * nd) <= 0)) as [Hz|Hz].
    + exists self, (Raise PyExc_IOError).
      split; [reflexivity|]. split; [reflexivity|]. split; [reflexivity|].
      split; [intros; contradiction|]. split.
      * intros _ Hpos. lia.
      * intros _ _. destruct (decide (mmap = 0 /\ wrap32 (np * nd) < 0)); [lia | reflexivity].
    + rewrite construct_invalid by exact Hbad.
      eexists _, _. split; [reflexivity|]. split; [reflexivity|]. split; [reflexivity|].
      split; [intros; contradiction|]. split; [reflexivity|].
      intros _ Hnot. exfalso. apply Hnot. lia.
Qed.

Lemma invalid_parameters_rejected_witness :
  exists self' r,
    Mrpt_init (mkDisk ∅ ∅ ∅) Mrpt_new (PyArrayData square_points) 4 2 1 0 (3 # 2)%Q 0
      = (self', r) /\
    ptr self' = ptr Mrpt_new /\
    returns r = false /\
    r = Raise InvalidParameter.
Proof.
  apply (invalid_parameters_rejected (mkDisk ∅ ∅ ∅) Mrpt_new
           (PyArrayData square_points) 4 2 1 0 (3 # 2)%Q 0).
  left. lia.
Defined.

(** With valid parameters the same call succeeds and the engine exists. *)
Example Mrpt_init_square :
  Mrpt_init (mkDisk ∅ ∅ ∅) Mrpt_new (PyArrayData square_points) 4 2 1 1 1%Q 0
    = (mkIndex (Some (mkMrpt square_view 1 1 1%Q [] false)) None false 4 2, Ret 0).
Proof. reflexivity. Qed.

(** After [build] the index answers queries: the square index is what
    [Mrpt_init] and [build] make of the four corners when the construction
    produces the tree that splits on the first coordinate. *)
Example build_square :
  build [Internal [1; 0]%Q (1 # 2)%Q (Leaf [0; 2]) (Leaf [1; 3])]
        (Mrpt_init (mkDisk ∅ ∅ ∅) Mrpt_new (PyArrayData square_points) 4 2 1 1 1%Q 0).1
    = (square_index, Ret Py_None).
Proof. reflexivity. Qed.

(** ** Persistence: the round trip *)

(** C8.  Saving a forest and loading the file into an index object over
    the same dataset succeeds and gives the same forest back, so [ann] and
    [exact_search] answer every query as the saved index does. *)
Theorem save_load_round_trip (d : Disk) (self self0 : mrptIndex) (f f0 : Mrpt)
    (fn : string) :
  ptr self = Some f ->
  forest_ok f ->
  fn ∉ read_only d ->
  ptr self0 = Some f0 ->
  X f0 = X f ->
  n self0 = n self ->
  exists d' self',
    save d self fn = (d', Ret Py_None) /\
    load d' self0 fn = (self', Ret Py_None) /\
    ptr self' = Some f /\
    (forall junk_i junk_d v k elect return_distances,
       ann junk_i junk_d self' v k elect return_distances
         = ann junk_i junk_d self v k elect return_distances) /\
    (forall junk_i junk_d v k return_distances,
       exact_search junk_i junk_d self' v k return_distances
         = exact_search junk_i junk_d self v k return_distances).
Proof.
  intros Hp Hok Hw Hp0 HX Hn.
  destruct (Mrpt_save_load f f0 fn d Hok Hw HX) as (d' & Hsave & _ & Hload).
  exists d', (mkIndex (Some f) (data_buf self0) (use_mmap self0) (n self0) (dim self0)).
  split; [unfold save; rewrite Hp, Hsave; reflexivity|].
  split; [unfold load; rewrite Hp0, Hload; reflexivity|].
  split; [reflexivity|]. split.
  - intros. unfold ann. simpl. rewrite Hp. reflexivity.
  - intros. unfold exact_search. simpl. rewrite Hp, Hn. reflexivity.
Qed.

Lemma save_load_round_trip_witness :
  exists d' self',
    save (mkDisk ∅ ∅ ∅) square_index "index.bin" = (d', Ret Py_None) /\
    load d' (mkIndex (Some (mkMrpt square_view 1 1 1%Q [] false)) None false 4 2) "index.bin"
      = (self', Ret Py_None) /\
    ptr self' = Some square_forest /\
    (forall junk_i junk_d v k elect return_distances,
       ann junk_i junk_d self' v k elect return_distances
         = ann junk_i junk_d square_index v k elect return_distances) /\
    (forall junk_i junk_d v k return_distances,
       exact_search junk_i junk_d self' v k return_distances
         = exact_search junk_i junk_d square_index v k return_distances).
Proof.
  apply (save_load_round_trip (mkDisk ∅ ∅ ∅) square_index
           (mkIndex (Some (mkMrpt square_view 1 1 1%Q [] false)) None false 4 2)
           square_forest (mkMrpt square_view 1 1 1%Q [] false) "index.bin").
  - reflexivity.
  - unfold forest_ok. simpl. repeat split; try lia. repeat constructor; lia.
  - simpl. apply not_elem_of_empty.
  - reflexivity.
  - reflexivity.
  - reflexivity.
Defined.

(** A stream cut in the middle of a tree is corrupt data, and the binding
    reports the failed load as [IOError]. *)
Example truncated_stream_is_corrupt :
  decode_forest square_view (take 12 (encode_forest square_forest)) = Raise CorruptData /\
  (load (mkDisk ∅ {["index.bin" := take 12 (encode_forest square_forest)]} ∅)
        square_index "index.bin").2 = Raise PyExc_IOError.
Proof. split; vm_compute; reflexivity. Qed.

(** ** More on the vote filter *)

Lemma vote_loop_take t iters : forall l votes out,
  vote_loop iters l t votes out = vote_loop iters (take iters l) t votes out.
Proof.
  induction iters as [|iters IH]; intros l votes out; [reflexivity|].
  destruct l as [|x l]; [reflexivity|].
  cbn [take vote_loop].
  destruct (decide (0 <= x)); [|reflexivity].
  destruct (votes !! Z.to_nat x); [|reflexivity].
  apply IH.
Qed.

Lemma vote_loop_past_end t l : forall iters votes out,
  (length l < iters)%nat -> vote_loop iters l t votes out = Undef.
Proof.
  induction l as [|x l IH]; intros iters votes out Hlen.
  - destruct iters; [simpl in Hlen; lia | reflexivity].
  - destruct iters as [|iters]; [simpl in Hlen; lia|].
    cbn [vote_loop].
    destruct (decide (0 <= x)); [|reflexivity].
    destruct (votes !! Z.to_nat x); [|reflexivity].
    apply IH. simpl in Hlen. lia.
Qed.

Lemma reached_sublist t seen l : reached t seen l `sublist_of` l.
Proof.
  revert seen. induction l as [|x l IH]; intros seen; simpl; [constructor|].
  destruct (decide (occ x seen + 1 = t)); simpl.
  - apply sublist_skip. apply IH.
  - apply sublist_cons. apply IH.
Qed.

Lemma reached_app t l1 : forall seen l2,
  exists seen', reached t seen (l1 ++ l2) = reached t seen l1 ++ reached t seen' l2.
Proof.
  induction l1 as [|x l1 IH]; intros seen l2; simpl.
  - exists seen. reflexivity.
  - destruct (IH (x :: seen) l2) as [seen' ->].
    exists seen'. rewrite app_assoc. reflexivity.
Qed.

Lemma occ_Permutation x l1 l2 : l1 ≡ₚ l2 -> occ x l1 = occ x l2.
Proof.
  induction 1 as [|y l1 l2 _ IH|y z l|l1 l2 l3 _ IH1 _ IH2]; simpl; try lia.
Qed.

Lemma occ_filter_ne y z l : z <> y -> occ z (filter (fun x => x <> y) l) = occ z l.
Proof.
  intros Hne. induction l as [|x l IH]; [reflexivity|].
  rewrite filter_cons. destruct (decide (x <> y)) as [Hx|Hx]; simpl.
  - rewrite IH. reflexivity.
  - rewrite IH. destruct (decide (z = x)) as [->|]; [|lia].
    exfalso. apply Hx. exact Hne.
Qed.

Lemma length_filter_ne y l :
  Z.of_nat (length l) = occ y l + Z.of_nat (length (filter (fun x => x <> y) l)).
Proof.
  induction l as [|x l IH]; [reflexivity|].
  rewrite filter_cons. simpl.
  destruct (decide (x <> y)) as [Hx|Hx]; destruct (decide (y = x)) as [He|He]; simpl;
    try lia; try congruence.
Qed.

(** Distinct ids with at least [t] votes each: their number times [t] is
    at most the number of votes. *)
Lemma votes_bound t (ids : list Z) : forall l,
  0 <= t -> NoDup ids -> (forall y, y ∈ ids -> t <= occ y l) ->
  t * Z.of_nat (length ids) <= Z.of_nat (length l).
Proof.
  induction ids as [|y ids IH]; intros l Ht Hnd Hall; simpl; [lia|].
  apply NoDup_cons in Hnd as [Hy Hnd].
  pose proof (length_filter_ne y l) as Hlen.
  assert (Hrest : t * Z.of_nat (length ids)
                  <= Z.of_nat (length (filter (fun x => x <> y) l))).
  { apply IH; [exact Ht | exact Hnd|].
    intros z Hz. rewrite occ_filter_ne.
    - apply Hall. right. exact Hz.
    - intros ->. contradiction. }
  pose proof (Hall y ltac:(left)) as Hy'. lia.
Qed.

(** X1.  The call returns exactly when every id is below the number of ids
    passed: nothing else is checked. *)
Theorem filter_returns_iff_in_bounds (l : list Z) (num_leaves votes_required : Z) :
  num_leaves = Z.of_nat (length l) ->
  is_int num_leaves ->
  returns (filter_leaves_by_votes l num_leaves votes_required) = true
    <-> in_bounds num_leaves l.
Proof.
  intros Hn Hi. split.
  - intros Hr.
    destruct (Forall_dec (fun x => 0 <= x < num_leaves) l) as [Hb|Hb]; [exact Hb|].
    unfold filter_leaves_by_votes in Hr.
    rewrite (voted_leaves_of_out_of_bounds l num_leaves votes_required Hn Hb) in Hr.
    discriminate.
  - intros Hb.
    rewrite (filter_of_voted _ _ _ _
               (voted_leaves_of_reached l num_leaves votes_required Hn Hi Hb)).
    reflexivity.
Qed.

Lemma filter_returns_iff_in_bounds_witness :
  returns (filter_leaves_by_votes [1; 3] 2 1) = true <-> in_bounds 2 [1; 3].
Proof.
  apply (filter_returns_iff_in_bounds [1; 3] 2 1).
  - reflexivity.
  - unfold is_int, INT_MIN, INT_MAX. lia.
Defined.

(** X2.  A count that is negative or larger than the array makes the call
    undefined, whatever the array holds. *)
Theorem filter_count_beyond_array (l : list Z) (num_leaves votes_required : Z) :
  num_leaves < 0 \/ Z.of_nat (length l) < num_leaves ->
  filter_leaves_by_votes l num_leaves votes_required = Undef.
Proof.
  intros H. unfold filter_leaves_by_votes, voted_leaves_of.
  destruct (decide (0 <= num_leaves)) as [Hn|Hn]; [|reflexivity].
  rewrite vote_loop_past_end by lia. reflexivity.
Qed.

Lemma filter_count_beyond_array_witness :
  filter_leaves_by_votes [0; 1] 3 1 = Undef.
Proof. apply (filter_count_beyond_array [0; 1] 3 1). right. simpl. lia. Defined.

(** X3.  Only the first [num_leaves] entries of the array are read. *)
Theorem filter_reads_prefix (l : list Z) (num_leaves votes_required : Z) :
  filter_leaves_by_votes l num_leaves votes_required
    = filter_leaves_by_votes (take (Z.to_nat num_leaves) l) num_leaves votes_required.
Proof.
  unfold filter_leaves_by_votes, voted_leaves_of.
  destruct (decide (0 <= num_leaves)); [|reflexivity].
  rewrite vote_loop_take. reflexivity.
Qed.

(** X4.  The candidates come in the order of the input: the candidate list is a
    subsequence of it. *)
Theorem filter_keeps_input_order (l : list Z) (num_leaves votes_required : Z) :
  num_leaves = Z.of_nat (length l) ->
  is_int num_leaves ->
  in_bounds num_leaves l ->
  exists voted,
    voted_leaves_of l num_leaves votes_required = Ret voted /\
    voted `sublist_of` l.
Proof.
  intros Hn Hi Hb. exists (reached votes_required [] l).
  split; [apply voted_leaves_of_reached; assumption | apply reached_sublist].
Qed.

Lemma filter_keeps_input_order_witness :
  exists voted,
    voted_leaves_of [2; 0; 2; 0; 1] 5 2 = Ret voted /\
    voted `sublist_of` [2; 0; 2; 0; 1].
Proof.
  apply (filter_keeps_input_order [2; 0; 2; 0; 1] 5 2).
  - reflexivity.
  - unfold is_int, INT_MIN, INT_MAX. lia.
  - unfold in_bounds. repeat constructor; lia.
Defined.

(** X5.  With a threshold of at least 1, every candidate stands for at least
    [votes_required] votes: the number of candidates times the threshold is
    at most the number of votes. *)
Theorem filter_candidates_bounded (l : list Z) (num_leaves votes_required : Z) :
  num_leaves = Z.of_nat (length l) ->
  is_int num_leaves ->
  in_bounds num_leaves l ->
  1 <= votes_required ->
  exists voted,
    voted_leaves_of l num_leaves votes_required = Ret voted /\
    votes_required * Z.of_nat (length voted) <= num_leaves.
Proof.
  intros Hn Hi Hb Ht. exists (reached votes_required [] l).
  split; [apply voted_leaves_of_reached; assumption|].
  rewrite Hn. apply votes_bound; [lia | apply reached_NoDup; exact Ht|].
  intros y Hy. apply list_elem_of_In in Hy.
  apply reached_iff in Hy; [|exact Ht]. simpl in Hy. lia.
Qed.

Lemma filter_candidates_bounded_witness :
  exists voted,
    voted_leaves_of [2; 0; 2; 0; 1] 5 2 = Ret voted /\
    2 * Z.of_nat (length voted) <= 5.
Proof.
  apply (filter_candidates_bounded [2; 0; 2; 0; 1] 5 2).
  - reflexivity.
  - unfold is_int, INT_MIN, INT_MAX. lia.
  - unfold in_bounds. repeat constructor; lia.
  - lia.
Defined.

(** X6.  More votes only add candidates at the end: the candidate list of a
    vote sequence is a prefix of the candidate list of any extension of
    it. *)
Theorem filter_extension_appends (l more : list Z) (votes_required : Z) :
  is_int (Z.of_nat (length (l ++ more))) ->
  in_bounds (Z.of_nat (length l)) l ->
  in_bounds (Z.of_nat (length (l ++ more))) (l ++ more) ->
  exists voted voted',
    voted_leaves_of l (Z.of_nat (length l)) votes_required = Ret voted /\
    voted_leaves_of (l ++ more) (Z.of_nat (length (l ++ more))) votes_required
      = Ret voted' /\
    voted `prefix_of` voted'.
Proof.
  intros Hi Hb Hb'.
  exists (reached votes_required [] l), (reached votes_required [] (l ++ more)).
  split.
  { apply voted_leaves_of_reached; [reflexivity | | exact Hb].
    unfold is_int, INT_MIN, INT_MAX in *. rewrite length_app in Hi. lia. }
  split; [apply voted_leaves_of_reached; [reflexivity | exact Hi | exact Hb']|].
  destruct (reached_app votes_required l [] more) as [seen' ->].
  apply prefix_app_r. reflexivity.
Qed.

Lemma filter_extension_appends_witness :
  exists voted voted',
    voted_leaves_of [1; 0; 1] (Z.of_nat (length [1; 0; 1])) 2 = Ret voted /\
    voted_leaves_of ([1; 0; 1] ++ [0; 3])
      (Z.of_nat (length ([1; 0; 1] ++ [0; 3]))) 2 = Ret voted' /\
    voted `prefix_of` voted'.
Proof.
  apply (filter_extension_appends [1; 0; 1] [0; 3] 2).
  - unfold is_int, INT_MIN, INT_MAX. simpl. lia.
  - unfold in_bounds. simpl. repeat constructor; lia.
  - unfold in_bounds. simpl. repeat constructor; lia.
Defined.

(** X7.  The order of the votes decides the order of the candidates, not which
    ids are candidates: two vote sequences that are permutations of each
    other give candidate lists that are permutations of each other. *)
Theorem filter_permutation (l l' : list Z) (num_leaves votes_required : Z) :
  num_leaves = Z.of_nat (length l) ->
  is_int num_leaves ->
  in_bounds num_leaves l ->
  l ≡ₚ l' ->
  exists voted voted',
    voted_leaves_of l num_leaves votes_required = Ret voted /\
    voted_leaves_of l' num_leaves votes_required = Ret voted' /\
    voted ≡ₚ voted'.
Proof.
  intros Hn Hi Hb Hp.
  exists (reached votes_required [] l), (reached votes_required [] l').
  split; [apply voted_leaves_of_reached; assumption|].
  split.
  { apply voted_leaves_of_reached; [|exact Hi|].
    - rewrite Hn, Hp. reflexivity.
    - unfold in_bounds in *. rewrite <- Hp. exact Hb. }
  destruct (decide (1 <= votes_required)) as [Ht|Ht].
  - apply NoDup_Permutation; try (apply reached_NoDup; exact Ht).
    intros y. rewrite !list_elem_of_In, !reached_iff by exact Ht.
    simpl. rewrite (occ_Permutation y l l' Hp). reflexivity.
  - rewrite !reached_nonpos by lia. reflexivity.
Qed.

Lemma filter_permutation_witness :
  exists voted voted',
    voted_leaves_of [1; 0; 1; 0] 4 2 = Ret voted /\
    voted_leaves_of [0; 0; 1; 1] 4 2 = Ret voted' /\
    voted ≡ₚ voted'.
Proof.
  apply (filter_permutation [1; 0; 1; 0] [0; 0; 1; 1] 4 2).
  - reflexivity.
  - unfold is_int, INT_MIN, INT_MAX. lia.
  - unfold in_bounds. repeat constructor; lia.
  - change [1; 0; 1; 0] with ([1] ++ [0; 1; 0]).
    rewrite (Permutation_app_comm [1] [0; 1; 0]). simpl.
    do 1 constructor.
    change [1; 0; 1] with ([1] ++ [0; 1]).
    rewrite (Permutation_app_comm [1] [0; 1]). reflexivity.
Defined.

(** ** More on construction *)

Lemma construct_cases self data np nd depth n_trees density :
  (exists f, construct self data np nd depth n_trees density
               = (mkIndex (Some f) (data_buf self) (use_mmap self) np nd, Ret 0)) \/
  (exists r, construct self data np nd depth n_trees density
               = (mkIndex (ptr self) (data_buf self) (use_mmap self) np nd, r) /\
             returns r = false).
Proof.
  unfold construct.
  destruct (Mrpt_ctor (mkView data np nd) n_trees depth density) as [f|e|].
  - left. exists f. reflexivity.
  - right. exists (Raise e). split; reflexivity.
  - right. exists Undef. split; reflexivity.
Qed.

Lemma Mrpt_init_cases d self py_data np nd depth n_trees density mmap :
  exists self' r,
    Mrpt_init d self py_data np nd depth n_trees density mmap = (self', r) /\
    ((r = Ret 0 /\ is_Some (ptr self') /\ n self' = np /\ dim self' = nd) \/
     (returns r = false /\ ptr self' = ptr self)).
Proof.
  assert (Hc : forall s data,
            ptr s = ptr self ->
            exists self' r,
              construct s data np nd depth n_trees density = (self', r) /\
              ((r = Ret 0 /\ is_Some (ptr self') /\ n self' = np /\ dim self' = nd) \/
               (returns r = false /\ ptr self' = ptr self))).
  { intros s data Hs.
    destruct (construct_cases s data np nd depth n_trees density)
      as [[f ->] | [r [-> Hr]]]; eexists _, _; (split; [reflexivity|]).
    - left. simpl. eauto.
    - right. simpl. split; [exact Hr | exact Hs]. }
  assert (Hfail : forall r : outcome Z, returns r = false ->
            exists self' r',
              (self, r) = (self', r') /\
              ((r' = Ret 0 /\ is_Some (ptr self') /\ n self' = np /\ dim self' = nd) \/
               (returns r' = false /\ ptr self' = ptr self))).
  { intros r Hr. exists self, r. split; [reflexivity|]. right. split; [exact Hr | reflexivity]. }
  destruct py_data as [file | a]; simpl; [|apply Hc; reflexivity].
  destruct (data_files d !! file) as [content|] eqn:Hf; [|apply Hfail; reflexivity].
  destruct (decide (4 * Z.of_nat (length content) = (4 * nd * np) mod 2 ^ 32));
    [|apply Hfail; reflexivity].
  destruct (decide (mmap = 0)).
  - unfold read_memory. rewrite Hf.
    destruct (decide (0 <= wrap32 (np * nd))); [|apply Hfail; reflexivity].
    destruct (decide (Z.of_nat (length (take (Z.to_nat (wrap32 (np * nd))) content))
                      = wrap32 (np * nd)));
      [apply Hc; reflexivity | apply Hfail; reflexivity].
  - unfold read_mmap. rewrite Hf.
    destruct (decide (wrap32 (np * nd) <= 0));
      [apply Hfail; reflexivity | apply Hc; reflexivity].
Qed.

(** X8.  [Mrpt_init] returns 0 exactly when it has set [self->ptr]: on success
    the engine exists and [self->n], [self->dim] hold the arguments; on
    every failure [self->ptr] is what it was.  With the data passed as an
    array, [self->data] and [self->mmap] are not touched. *)
Theorem Mrpt_init_sets_ptr_on_success (d : Disk) (self : mrptIndex) (py_data : PyData)
    (np nd depth n_trees : Z) (density : scalar) (mmap : Z) :
  exists self' r,
    Mrpt_init d self py_data np nd depth n_trees density mmap = (self', r) /\
    ((r = Ret 0 /\ is_Some (ptr self') /\ n self' = np /\ dim self' = nd) \/
     (returns r = false /\ ptr self' = ptr self)) /\
    (forall a, py_data = PyArrayData a ->
       data_buf self' = data_buf self /\ use_mmap self' = use_mmap self).
Proof.
  destruct (Mrpt_init_cases d self py_data np nd depth n_trees density mmap)
    as (self' & r & Heq & Hcases).
  exists self', r. split; [exact Heq|]. split; [exact Hcases|].
  intros a ->. simpl in Heq.
  destruct (construct_cases self a np nd depth n_trees density)
    as [[f Hf] | [r' [Hf _]]]; rewrite Hf in Heq; injection Heq as <- _; split; reflexivity.
Qed.

(** X9.  A data file gets past the size check only if its size is
    [sizeof(float) * dim * n] cut to 32 bits: a file of 4 GiB or more is
    always answered with [ValueError]. *)
Theorem Mrpt_init_file_size_checked (d : Disk) (self : mrptIndex) (file : string)
    (content : list scalar) (np nd depth n_trees : Z) (density : scalar) (mmap : Z) :
  data_files d !! file = Some content ->
  (Mrpt_init d self (PyString file) np nd depth n_trees density mmap).2
    <> Raise PyExc_ValueError ->
  4 * Z.of_nat (length content) = (4 * nd * np) mod 2 ^ 32 /\
  4 * Z.of_nat (length content) < 2 ^ 32.
Proof.
  intros Hf Hr. simpl in Hr. rewrite Hf in Hr.
  destruct (decide (4 * Z.of_nat (length content) = (4 * nd * np) mod 2 ^ 32)) as [He|He].
  - split; [exact He|]. rewrite He. apply Z.mod_pos_bound. lia.
  - exfalso. apply Hr. reflexivity.
Qed.

Lemma Mrpt_init_file_size_checked_witness :
  4 * Z.of_nat (length square_points) = (4 * 2 * 4) mod 2 ^ 32 /\
  4 * Z.of_nat (length square_points) < 2 ^ 32.
Proof.
  apply (Mrpt_init_file_size_checked
           (mkDisk {["points.bin" := square_points]} ∅ ∅) Mrpt_new "points.bin"
           square_points 4 2 1 1 1%Q 0).
  - reflexivity.
  - vm_compute. discriminate.
Defined.

Lemma wrap32_congruent z : exists q, z = 2 ^ 32 * q + wrap32 z.
Proof.
  unfold wrap32. exists ((z + 2 ^ 31) / 2 ^ 32).
  pose proof (Z.div_mod (z + 2 ^ 31) (2 ^ 32) ltac:(lia)). lia.
Qed.

(** X10.  Through [read_memory] (mmap = 0) a successful [Mrpt_init] has read the
    whole file: the buffer kept in [self->data] is the content of the
    file, which holds exactly [n * dim] floats and is smaller than
    4 GiB. *)
Theorem Mrpt_init_reads_whole_file (d : Disk) (self self' : mrptIndex) (file : string)
    (np nd depth n_trees : Z) (density : scalar) (r : Z) :
  Mrpt_init d self (PyString file) np nd depth n_trees density 0 = (self', Ret r) ->
  exists content,
    data_files d !! file = Some content /\
    data_buf self' = Some content /\
    use_mmap self' = false /\
    Z.of_nat (length content) = wrap32 (np * nd) /\
    4 * Z.of_nat (length content) < 2 ^ 32.
Proof.
  intros H. simpl in H.
  destruct (data_files d !! file) as [content|] eqn:Hf; [|discriminate].
  destruct (decide (4 * Z.of_nat (length content) = (4 * nd * np) mod 2 ^ 32)) as [Hsz|];
    [|discriminate].
  destruct (decide (0 = 0)); [|contradiction].
  unfold read_memory in H. rewrite Hf in H.
  destruct (decide (0 <= wrap32 (np * nd))) as [Hc|]; [|discriminate].
  destruct (decide (Z.of_nat (length (take (Z.to_nat (wrap32 (np * nd))) content))
                    = wrap32 (np * nd))) as [Hg|]; [|discriminate].
  assert (Hlen : Z.of_nat (length content) = wrap32 (np * nd)).
  { rewrite length_take in Hg.
    destruct (wrap32_congruent (np * nd)) as [q Hq].
    assert (Hmod : (4 * nd * np) mod 2 ^ 32 = (4 * wrap32 (np * nd)) mod 2 ^ 32).
    { replace (4 * nd * np) with (4 * wrap32 (np * nd) + (4 * q) * 2 ^ 32) by lia.
      apply Z_mod_plus_full. }
    pose proof (Z.mod_le (4 * wrap32 (np * nd)) (2 ^ 32) ltac:(lia) ltac:(lia)).
    lia. }
  exists content. split; [reflexivity|].
  assert (Htake : take (Z.to_nat (wrap32 (np * nd))) content = content).
  { apply take_ge. lia. }
  rewrite Htake in H.
  destruct (construct_cases (set_data self content 0) content np nd depth n_trees density)
    as [[f Hf'] | [r' [Hf' Hr']]]; rewrite Hf' in H.
  - injection H as <- _. simpl.
    repeat split; try reflexivity; try exact Hlen.
    rewrite Hsz. apply Z.mod_pos_bound. lia.
  - injection H as _ Hret. rewrite Hret in Hr'. discriminate.
Qed.

Lemma Mrpt_init_reads_whole_file_witness :
  exists content,
    data_files (mkDisk {["points.bin" := square_points]} ∅ ∅) !! "points.bin"
      = Some content /\
    data_buf (mkIndex (Some (mkMrpt square_view 1 1 1%Q [] false))
                (Some square_points) false 4 2) = Some content /\
    use_mmap (mkIndex (Some (mkMrpt square_view 1 1 1%Q [] false))
                (Some square_points) false 4 2) = false /\
    Z.of_nat (length content) = wrap32 (4 * 2) /\
    4 * Z.of_nat (length content) < 2 ^ 32.
Proof.
  apply (Mrpt_init_reads_whole_file
           (mkDisk {["points.bin" := square_points]} ∅ ∅) Mrpt_new
           (mkIndex (Some (mkMrpt square_view 1 1 1%Q [] false))
              (Some square_points) false 4 2)
           "points.bin" 4 2 1 1 1%Q 0).
  vm_compute. reflexivity.
Defined.

(** X11.  Through [read_mmap] (mmap not 0) a successful [Mrpt_init] keeps the
    mapping of the whole file in [self->data] and sets [self->mmap].  The
    file never holds more than [n * dim] floats, and holds exactly that
    many when [n * dim] is below 2^30. *)
Theorem Mrpt_init_maps_whole_file (d : Disk) (self self' : mrptIndex) (file : string)
    (np nd depth n_trees : Z) (density : scalar) (mmap r : Z) :
  mmap <> 0 ->
  Mrpt_init d self (PyString file) np nd depth n_trees density mmap = (self', Ret r) ->
  exists content,
    data_files d !! file = Some content /\
    data_buf self' = Some content /\
    use_mmap self' = true /\
    Z.of_nat (length content) <= wrap32 (np * nd) /\
    (wrap32 (np * nd) < 2 ^ 30 -> Z.of_nat (length content) = wrap32 (np * nd)).
Proof.
  intros Hm H. simpl in H.
  destruct (data_files d !! file) as [content|] eqn:Hf; [|discriminate].
  destruct (decide (4 * Z.of_nat (length content) = (4 * nd * np) mod 2 ^ 32)) as [Hsz|];
    [|discriminate].
  destruct (decide (mmap = 0)); [contradiction|].
  unfold read_mmap in H. rewrite Hf in H.
  destruct (decide (wrap32 (np * nd) <= 0)) as [|Hc]; [discriminate|].
  exists content. split; [reflexivity|].
  destruct (wrap32_congruent (np * nd)) as [q Hq].
  assert (Hmod : (4 * nd * np) mod 2 ^ 32 = (4 * wrap32 (np * nd)) mod 2 ^ 32).
  { replace (4 * nd * np) with (4 * wrap32 (np * nd) + (4 * q) * 2 ^ 32) by lia.
    apply Z_mod_plus_full. }
  pose proof (Z.mod_le (4 * wrap32 (np * nd)) (2 ^ 32) ltac:(lia) ltac:(lia)) as Hle.
  destruct (construct_cases (set_data self content mmap) content np nd depth n_trees density)
    as [[f Hf'] | [r' [Hf' Hr']]]; rewrite Hf' in H.
  - injection H as <- _. cbn [data_buf use_mmap set_data].
    rewrite bool_decide_eq_true_2 by exact Hm.
    split; [reflexivity|]. split; [reflexivity|]. split; [lia|].
    intros Hsmall. rewrite (Z.mod_small (4 * wrap32 (np * nd))) in Hmod by lia. lia.
  - injection H as _ Hret. rewrite Hret in Hr'. discriminate.
Qed.

Lemma Mrpt_init_maps_whole_file_witness :
  exists content,
    data_files (mkDisk {["points.bin" := square_points]} ∅ ∅) !! "points.bin"
      = Some content /\
    data_buf (mkIndex (Some (mkMrpt square_view 1 1 1%Q [] false))
                (Some square_points) true 4 2) = Some content /\
    use_mmap (mkIndex (Some (mkMrpt square_view 1 1 1%Q [] false))
                (Some square_points) true 4 2) = true /\
    Z.of_nat (length content) <= wrap32 (4 * 2) /\
    (wrap32 (4 * 2) < 2 ^ 30 -> Z.of_nat (length content) = wrap32 (4 * 2)).
Proof.
  apply (Mrpt_init_maps_whole_file
           (mkDisk {["points.bin" := square_points]} ∅ ∅) Mrpt_new
           (mkIndex (Some (mkMrpt square_view 1 1 1%Q [] false))
              (Some square_points) true 4 2)
           "points.bin" 4 2 1 1 1%Q 1 0).
  - lia.
  - vm_compute. reflexivity.
Defined.

Lemma run_queries_null junk_i junk_d (v : QueryArray) (k return_distances : Z) :
  (forall cols m, v <> Mat 0 cols m) ->
  run_queries junk_i junk_d (fun _ => Undef) v k return_distances = Undef.
Proof.
  intros Hv. unfold run_queries.
  destruct (decide (0 <= k)); [|reflexivity].
  destruct v as [q | rows cols m]; [reflexivity|].
  destruct (decide (0 <= rows)); [|reflexivity].
  destruct (Z.to_nat rows) as [|rn] eqn:Hrn.
  - exfalso. apply (Hv cols m). f_equal. lia.
  - reflexivity.
Qed.

Lemma run_queries_no_rows junk_i junk_d search (cols : Z) (m : list scalar)
    (k return_distances : Z) :
  0 <= k ->
  run_queries junk_i junk_d search (Mat 0 cols m) k return_distances =
    Ret (if decide (return_distances = 0)
         then PyArr (mkArray PyArray_INT [0%nat; Z.to_nat k] [])
         else PyTuple (mkArray PyArray_INT [0%nat; Z.to_nat k] [])
                      (mkArray PyArray_FLOAT [0%nat; Z.to_nat k] [])).
Proof.
  intros Hk. unfold run_queries.
  destruct (decide (0 <= k)); [|lia].
  destruct (decide (0 <= 0)); [|lia].
  simpl. destruct (decide (return_distances = 0)); reflexivity.
Qed.

(** X12.  When [Mrpt_init] on a fresh object fails, [self->ptr] is still
    null.  [build], [ann_from_leaves], [get_nearest_leaves], [save] and
    [load] dereference it without a check and are undefined; so are [ann]
    and [exact_search] on every query array but a batch without rows, for
    which the engine is never called and an empty array of shape [0, k] is
    returned. *)
Theorem failed_init_leaves_object_unusable (d : Disk) (py_data : PyData)
    (np nd depth n_trees : Z) (density : scalar) (mmap : Z)
    (self' : mrptIndex) (r : outcome Z) :
  Mrpt_init d Mrpt_new py_data np nd depth n_trees density mmap = (self', r) ->
  r <> Ret 0 ->
  ptr self' = None /\
  (forall grown, build grown self' = (self', Undef)) /\
  (forall junk_i junk_d v k elect return_distances,
     (forall cols m, v <> Mat 0 cols m) ->
     ann junk_i junk_d self' v k elect return_distances = Undef) /\
  (forall junk_i junk_d cols m k elect return_distances,
     0 <= k ->
     ann junk_i junk_d self' (Mat 0 cols m) k elect return_distances =
       Ret (if decide (return_distances = 0)
            then PyArr (mkArray PyArray_INT [0%nat; Z.to_nat k] [])
            else PyTuple (mkArray PyArray_INT [0%nat; Z.to_nat k] [])
                         (mkArray PyArray_FLOAT [0%nat; Z.to_nat k] []))) /\
  (forall junk_i junk_d v l num_leaves k elect return_distances,
     ann_from_leaves junk_i junk_d self' v l num_leaves k elect return_distances = Undef) /\
  (forall junk_i junk_d v k return_distances,
     (forall cols m, v <> Mat 0 cols m) ->
     exact_search junk_i junk_d self' v k return_distances = Undef) /\
  (forall junk_i junk_d cols m k return_distances,
     0 <= k -> 0 <= n self' ->
     exact_search junk_i junk_d self' (Mat 0 cols m) k return_distances =
       Ret (if decide (return_distances = 0)
            then PyArr (mkArray PyArray_INT [0%nat; Z.to_nat k] [])
            else PyTuple (mkArray PyArray_INT [0%nat; Z.to_nat k] [])
                         (mkArray PyArray_FLOAT [0%nat; Z.to_nat k] []))) /\
  (forall junk_i junk_d v leaves num_leaves k,
     get_nearest_leaves junk_i junk_d self' v leaves num_leaves k = Undef) /\
  (forall disk fn, save disk self' fn = (disk, Undef)) /\
  (forall disk fn, load disk self' fn = (self', Undef)).
Proof.
  intros Hinit Hr.
  assert (Hp : ptr self' = None).
  { destruct (Mrpt_init_cases d Mrpt_new py_data np nd depth n_trees density mmap)
      as (s & r0 & Heq & [[Hr0 _] | [_ Hptr]]);
      rewrite Hinit in Heq; injection Heq as <- <-; [contradiction | exact Hptr]. }
  split; [exact Hp|].
  split; [intros; unfold build; rewrite Hp; reflexivity|].
  split; [intros; unfold ann; rewrite Hp; apply run_queries_null; assumption|].
  split; [intros; unfold ann; apply run_queries_no_rows; assumption|].
  split; [intros; unfold ann_from_leaves; rewrite Hp; reflexivity|].
  split.
  { intros. unfold exact_search. rewrite Hp.
    destruct (decide (0 <= n self')); [apply run_queries_null; assumption | reflexivity]. }
  split.
  { intros. unfold exact_search.
    destruct (decide (0 <= n self')); [apply run_queries_no_rows; assumption | lia]. }
  split; [intros; unfold get_nearest_leaves; rewrite Hp; reflexivity|].
  split; intros; [unfold save | unfold load]; rewrite Hp; reflexivity.
Qed.

Lemma failed_init_leaves_object_unusable_witness :
  ptr Mrpt_new = None /\
  (forall grown, build grown Mrpt_new = (Mrpt_new, Undef)) /\
  (forall junk_i junk_d v k elect return_distances,
     (forall cols m, v <> Mat 0 cols m) ->
     ann junk_i junk_d Mrpt_new v k elect return_distances = Undef) /\
  (forall junk_i junk_d cols m k elect return_distances,
     0 <= k ->
     ann junk_i junk_d Mrpt_new (Mat 0 cols m) k elect return_distances =
       Ret (if decide (return_distances = 0)
            then PyArr (mkArray PyArray_INT [0%nat; Z.to_nat k] [])
            else PyTuple (mkArray PyArray_INT [0%nat; Z.to_nat k] [])
                         (mkArray PyArray_FLOAT [0%nat; Z.to_nat k] []))) /\
  (forall junk_i junk_d v l num_leaves k elect return_distances,
     ann_from_leaves junk_i junk_d Mrpt_new v l num_leaves k elect return_distances = Undef) /\
  (forall junk_i junk_d v k return_distances,
     (forall cols m, v <> Mat 0 cols m) ->
     exact_search junk_i junk_d Mrpt_new v k return_distances = Undef) /\
  (forall junk_i junk_d cols m k return_distances,
     0 <= k -> 0 <= n Mrpt_new ->
     exact_search junk_i junk_d Mrpt_new (Mat 0 cols m) k return_distances =
       Ret (if decide (return_distances = 0)
            then PyArr (mkArray PyArray_INT [0%nat; Z.to_nat k] [])
            else PyTuple (mkArray PyArray_INT [0%nat; Z.to_nat k] [])
                         (mkArray PyArray_FLOAT [0%nat; Z.to_nat k] []))) /\
  (forall junk_i junk_d v leaves num_leaves k,
     get_nearest_leaves junk_i junk_d Mrpt_new v leaves num_leaves k = Undef) /\
  (forall disk fn, save disk Mrpt_new fn = (disk, Undef)) /\
  (forall disk fn, load disk Mrpt_new fn = (Mrpt_new, Undef)).
Proof.
  apply (failed_init_leaves_object_unusable (mkDisk ∅ ∅ ∅) (PyString "points.bin")
           4 2 1 1 1%Q 0 Mrpt_new (Raise PyExc_IOError)).
  - reflexivity.
  - discriminate.
Defined.

(** ** More on the query methods

    The statements of this part are about [run_queries], the body that
    [ann], [ann_from_leaves] and [exact_search] share, and hold for every
    behaviour [search] of the engine. *)

Lemma mapM_cons_outcome {A B} (f : A -> outcome B) x l :
  mapM f (x :: l) = (y ← f x; k ← mapM f l; Ret (y :: k)).
Proof. reflexivity. Qed.

Lemma mapM_Ret_inv {A B} (f : A -> outcome B) l : forall outs,
  mapM f l = Ret outs -> Forall2 (fun x y => f x = Ret y) l outs.
Proof.
  induction l as [|x l IH]; intros outs H.
  - injection H as <-. constructor.
  - rewrite mapM_cons_outcome in H.
    destruct (f x) as [y| |] eqn:Hx; try discriminate.
    destruct (mapM f l) as [k| |] eqn:Hl; try discriminate.
    injection H as <-. constructor; [exact Hx | apply IH; reflexivity].
Qed.

Lemma mapM_first_failure {A B} (f : A -> outcome B) l1 x l2 e :
  (forall y, y ∈ l1 -> returns (f y) = true) ->
  f x = Raise e ->
  mapM f (l1 ++ x :: l2) = Raise e.
Proof.
  intros Hl1 Hx. induction l1 as [|y l1 IH]; simpl app.
  - rewrite mapM_cons_outcome, Hx. reflexivity.
  - rewrite mapM_cons_outcome.
    pose proof (Hl1 y ltac:(left)) as Hy.
    destruct (f y) as [b| |]; try discriminate.
    rewrite IH by (intros z Hz; apply Hl1; right; exact Hz). reflexivity.
Qed.

Lemma filled_out_length {T} (junk : nat -> T) off k res out :
  filled junk off k res = Ret out -> length out = k.
Proof.
  unfold filled. destruct (decide (length res <= k)%nat); [|discriminate].
  intros [= <-]. rewrite length_app, length_fmap, length_seq. lia.
Qed.

Lemma one_query_lengths junk_i junk_d search q off k nearest distances :
  one_query junk_i junk_d search q off k = Ret (nearest, distances) ->
  length nearest = k /\ length distances = k.
Proof.
  unfold one_query. destruct (search q) as [res| |]; try discriminate. simpl.
  destruct (filled junk_i off k (res.*2)) as [a| |] eqn:Ha; try discriminate. simpl.
  destruct (filled junk_d off k (res.*1)) as [b| |] eqn:Hb; try discriminate. simpl.
  intros [= <- <-]. split; eapply filled_out_length; eassumption.
Qed.

Lemma one_query_all_lengths junk_i junk_d search (qs : nat -> list scalar)
    (offs : nat -> nat) k (rows : list nat) (outs : list (list Z * list scalar)) :
  Forall2 (fun i o => one_query junk_i junk_d search (qs i) (offs i) k = Ret o) rows outs ->
  Forall (fun o => length (o.1) = k /\ length (o.2) = k) outs.
Proof.
  induction 1 as [|i [a b] rows outs Hi _ IH]; constructor; [|exact IH].
  simpl. eapply one_query_lengths. exact Hi.
Qed.

Lemma length_concat_uniform {T} (ls : list (list T)) k :
  Forall (fun l => length l = k) ls -> length (concat ls) = (length ls * k)%nat.
Proof.
  induction 1 as [|l ls Hl _ IH]; [reflexivity|].
  simpl. rewrite length_app, Hl, IH. reflexivity.
Qed.

(** X13.  Whatever the engine writes, a query method that returns gives arrays
    of the expected kind and size: [k] is not negative, the index array is
    an int array of [k] entries for a vector and of [rows] times [k] for a
    batch, and the distance array, returned exactly when
    [return_distances] is not 0, is a float array of the same shape. *)
Theorem run_queries_well_shaped (junk_i : nat -> Z) (junk_d : nat -> scalar)
    (search : list scalar -> outcome (list (scalar * Z)))
    (v : QueryArray) (k return_distances : Z) (obj : PyObject) :
  run_queries junk_i junk_d search v k return_distances = Ret obj ->
  0 <= k /\ well_shaped v k return_distances obj.
Proof.
  unfold run_queries. destruct (decide (0 <= k)) as [Hk|]; [|discriminate].
  intros H. split; [exact Hk|].
  destruct v as [q | rows cols m].
  - destruct (one_query junk_i junk_d search q 0 (Z.to_nat k)) as [[a b]| |] eqn:Hq;
      try discriminate.
    apply one_query_lengths in Hq as [Ha Hb]. simpl in H.
    destruct (decide (return_distances = 0)); injection H as <-; simpl;
      rewrite ?Ha, ?Hb; repeat split; try assumption; lia.
  - destruct (decide (0 <= rows)); [|discriminate].
    destruct (mapM (fun i => one_query junk_i junk_d search (row m cols i)
                               (i * Z.to_nat k) (Z.to_nat k))
                   (seq 0 (Z.to_nat rows))) as [outs| |] eqn:Hm; try discriminate.
    apply mapM_Ret_inv in Hm.
    assert (Hlen : length outs = Z.to_nat rows).
    { apply Forall2_length in Hm. rewrite length_seq in Hm. lia. }
    assert (Hall : Forall (fun o => length (o.1) = Z.to_nat k /\ length (o.2) = Z.to_nat k) outs).
    { exact (one_query_all_lengths junk_i junk_d search (fun i => row m cols i)
               (fun i => (i * Z.to_nat k)%nat) (Z.to_nat k) _ _ Hm). }
    assert (H1 : length (concat (outs.*1)) = (Z.to_nat rows * Z.to_nat k)%nat).
    { rewrite (length_concat_uniform _ (Z.to_nat k)), length_fmap, Hlen; [reflexivity|].
      apply Forall_fmap. eapply Forall_impl; [exact Hall|]. intros o [Ho _]. exact Ho. }
    assert (H2 : length (concat (outs.*2)) = (Z.to_nat rows * Z.to_nat k)%nat).
    { rewrite (length_concat_uniform _ (Z.to_nat k)), length_fmap, Hlen; [reflexivity|].
      apply Forall_fmap. eapply Forall_impl; [exact Hall|]. intros o [_ Ho]. exact Ho. }
    simpl in H.
    destruct (decide (return_distances = 0)); injection H as <-; simpl;
      rewrite ?H1, ?H2; repeat split; try assumption; lia.
Qed.

Lemma run_queries_well_shaped_witness :
  0 <= 3 /\
  well_shaped (Mat 2 2 [1; 0; 0; 0]%Q) 3 1
    (PyTuple (mkArray PyArray_INT [2%nat; 3%nat] [1; 0; 3; 0; 1; 2])
             (mkArray PyArray_FLOAT [2%nat; 3%nat] [0; 1; 1; 0; 1; 1]%Q)).
Proof.
  apply (run_queries_well_shaped (fun _ => -7) (fun _ => 99%Q)
           (fun q => exact_knn square_forest q 3 (iota 4))
           (Mat 2 2 [1; 0; 0; 0]%Q) 3 1).
  vm_compute. reflexivity.
Defined.

(** X15.  A batch of one row is the query for that row: the same entries, the
    same failure, with a leading dimension of 1. *)
Theorem one_row_batch_is_single_query (junk_i : nat -> Z) (junk_d : nat -> scalar)
    (search : list scalar -> outcome (list (scalar * Z)))
    (cols : Z) (m : list scalar) (k return_distances : Z) :
  run_queries junk_i junk_d search (Mat 1 cols m) k return_distances =
    (obj ← run_queries junk_i junk_d search (Vec (row m cols 0)) k return_distances;
     Ret (as_one_row obj)).
Proof.
  unfold run_queries.
  destruct (decide (0 <= k)); [|reflexivity].
  destruct (decide (0 <= 1)); [|lia].
  change (seq 0 (Z.to_nat 1)) with [0%nat].
  rewrite mapM_cons_outcome. change (0 * Z.to_nat k)%nat with 0%nat.
  destruct (one_query junk_i junk_d search (row m cols 0) 0 (Z.to_nat k)) as [[a b]| |];
    try reflexivity.
  simpl. rewrite !app_nil_r.
  destruct (decide (return_distances = 0)); reflexivity.
Qed.

(** X16.  A batch fails as a whole: when the engine fails on a row and has
    answered the rows before it with at most [k] entries each, the method
    fails with that error and returns nothing for the earlier rows. *)
Theorem batch_fails_with_first_failure (junk_i : nat -> Z) (junk_d : nat -> scalar)
    (search : list scalar -> outcome (list (scalar * Z)))
    (rows cols : Z) (m : list scalar) (k return_distances : Z) (i : nat) (e : PyExc) :
  0 <= k ->
  Z.of_nat i < rows ->
  (forall j, (j < i)%nat ->
     exists res, search (row m cols j) = Ret res /\ (length res <= Z.to_nat k)%nat) ->
  search (row m cols i) = Raise e ->
  run_queries junk_i junk_d search (Mat rows cols m) k return_distances = Raise e.
Proof.
  intros Hk Hi Hbefore Hfail. unfold run_queries.
  destruct (decide (0 <= k)); [|lia].
  destruct (decide (0 <= rows)); [|lia].
  replace (seq 0 (Z.to_nat rows))
    with (seq 0 i ++ i :: seq (S i) (Z.to_nat rows - S i)).
  2:{ replace (Z.to_nat rows) with (i + S (Z.to_nat rows - S i))%nat at 2 by lia.
      rewrite seq_app. reflexivity. }
  rewrite (mapM_first_failure _ _ _ _ e); [reflexivity| |].
  - intros j Hj. apply elem_of_seq in Hj.
    destruct (Hbefore j) as [res [Hres Hlen]]; [lia|].
    unfold one_query. rewrite Hres. simpl.
    rewrite !filled_short by (rewrite length_fmap; exact Hlen). reflexivity.
  - unfold one_query. rewrite Hfail. reflexivity.
Qed.

Lemma batch_fails_with_first_failure_witness :
  run_queries (fun _ => 0) (fun _ => 0%Q)
    (fun q => match q with
              | [] => Raise DimensionMismatch
              | x :: _ => if Qeq_bool x 0 then Raise NotBuilt else Ret [(x, 0)]
              end)
    (Mat 3 1 [1; 0; 2]%Q) 1 0 = Raise NotBuilt.
Proof.
  apply (batch_fails_with_first_failure (fun _ => 0) (fun _ => 0%Q)
           (fun q => match q with
                     | [] => Raise DimensionMismatch
                     | x :: _ => if Qeq_bool x 0 then Raise NotBuilt else Ret [(x, 0)]
                     end)
           3 1 [1; 0; 2]%Q 1 0 1 NotBuilt).
  - lia.
  - lia.
  - intros j Hj. assert (j = 0%nat) as -> by lia.
    exists [(1%Q, 0)]. split; [reflexivity | simpl; lia].
  - reflexivity.
Defined.

(** X17.  [get_nearest_leaves] over all point indices is [exact_search] for one
    query vector without distances. *)
Theorem get_nearest_leaves_of_all_points (junk_i : nat -> Z) (junk_d : nat -> scalar)
    (self : mrptIndex) (q : list scalar) (k : Z) :
  get_nearest_leaves junk_i junk_d self q (iota (n self)) (n self) k
    = exact_search junk_i junk_d self (Vec q) k 0.
Proof.
  unfold get_nearest_leaves, exact_search.
  rewrite length_iota.
  destruct (decide (0 <= n self)) as [Hn|Hn].
  - destruct (decide (0 <= n self <= Z.of_nat (Z.to_nat (n self)))); [|lia].
    rewrite <- (length_iota (n self)), firstn_all.
    destruct (ptr self) as [f|]; [reflexivity|].
    unfold run_queries. destruct (decide (0 <= k)); reflexivity.
  - destruct (ptr self) as [f|]; [|reflexivity].
    destruct (decide (0 <= n self <= Z.of_nat (Z.to_nat (n self)))); [lia | reflexivity].
Qed.

(** ** The leaf dictionary *)

Lemma leaf_info_loop_keys junk_d engine_leaf_info f ndims iters :
  forall (v : list Z) (round : nat) (leaf_dict : gmap Z (PyArrayObject scalar)),
  0 <= ndims ->
  (iters <= length v)%nat ->
  (forall x, x ∈ take iters v -> forall buf, exists vals, engine_leaf_info f x buf = Ret vals) ->
  exists result,
    leaf_info_loop junk_d engine_leaf_info iters v ndims (Some f) round leaf_dict
      = Ret result /\
    (forall x, is_Some (result !! x) <-> is_Some (leaf_dict !! x) \/ x ∈ take iters v) /\
    (forall x a, result !! x = Some a ->
       leaf_dict !! x = Some a \/
       (descr a = PyArray_FLOAT /\ dimensions a = [Z.to_nat ndims])) /\
    (size result <= size leaf_dict + iters)%nat.
Proof.
  induction iters as [|iters IH]; intros v round leaf_dict Hd Hlen Heng.
  - exists leaf_dict. split; [reflexivity|]. split; [|split].
    + intros x. rewrite take_0. split; [auto|]. intros [H|H]; [exact H|]. inversion H.
    + intros x a H. left. exact H.
    + lia.
  - destruct v as [|y v]; [simpl in Hlen; lia|].
    cbn [leaf_info_loop].
    destruct (decide (0 <= ndims)); [|lia].
    destruct (Heng y ltac:(left)
                (junk_d <$> seq (round * Z.to_nat ndims) (Z.to_nat ndims)))
      as [vals Hvals].
    rewrite Hvals. simpl.
    destruct (IH v (S round)
                (<[y := mkArray PyArray_FLOAT [Z.to_nat ndims] vals]> leaf_dict))
      as (result & Hres & Hkeys & Harr & Hsize).
    + exact Hd.
    + simpl in Hlen. lia.
    + intros x Hx. apply Heng. right. exact Hx.
    + exists result. split; [exact Hres|]. split; [|split].
      * intros x. rewrite Hkeys, lookup_insert_is_Some. cbn [take].
        rewrite elem_of_cons.
        destruct (decide (y = x)) as [->|Hne]; [tauto|].
        split; [intros [[H|[_ H]]|H] | intros [H|[H|H]]]; try tauto; try congruence.
      * intros x a Hx. destruct (Harr x a Hx) as [Hin | Hshape]; [|right; exact Hshape].
        destruct (decide (y = x)) as [->|Hne].
        -- rewrite lookup_insert_eq in Hin. injection Hin as <-. right. split; reflexivity.
        -- rewrite lookup_insert_ne in Hin by exact Hne. left. exact Hin.
      * pose proof (map_size_insert y (mkArray PyArray_FLOAT [Z.to_nat ndims] vals) leaf_dict)
          as Hs.
        destruct (leaf_dict !! y); simpl in Hs; unfold id in Hs; lia.
Qed.

(** X18.  [get_leaf_info] returns a dictionary whose keys are exactly the first
    [len] ids of the array, each once however often it occurs, so with at
    most [len] entries; every value is a float array of [dimensions]
    cells.  It holds when the array has [len] ids or more and the engine
    answers for each of them. *)
Theorem get_leaf_info_keys (junk_d : nat -> scalar)
    (engine_leaf_info : Mrpt -> Z -> list scalar -> outcome (list scalar))
    (self : mrptIndex) (f : Mrpt) (v : list Z) (len ndims : Z) :
  ptr self = Some f ->
  0 <= ndims ->
  0 <= len <= Z.of_nat (length v) ->
  (forall x, x ∈ take (Z.to_nat len) v ->
     forall buf, exists vals, engine_leaf_info f x buf = Ret vals) ->
  exists leaf_dict,
    get_leaf_info junk_d engine_leaf_info self v len ndims = Ret leaf_dict /\
    (forall x, is_Some (leaf_dict !! x) <-> x ∈ take (Z.to_nat len) v) /\
    (forall x a, leaf_dict !! x = Some a ->
       descr a = PyArray_FLOAT /\ dimensions a = [Z.to_nat ndims]) /\
    (size leaf_dict <= Z.to_nat len)%nat.
Proof.
  intros Hp Hd Hlen Heng. unfold get_leaf_info. rewrite Hp.
  destruct (leaf_info_loop_keys junk_d engine_leaf_info f ndims (Z.to_nat len) v 0 ∅)
    as (result & Hres & Hkeys & Harr & Hsize); [exact Hd | lia | exact Heng |].
  exists result. split; [exact Hres|]. split; [|split].
  - intros x. rewrite Hkeys, lookup_empty. split; [intros [[? [=]]|H]; exact H | auto].
  - intros x a Hx. destruct (Harr x a Hx) as [Hin | Hshape]; [|exact Hshape].
    rewrite lookup_empty in Hin. discriminate.
  - rewrite map_size_empty in Hsize. exact Hsize.
Qed.

Lemma get_leaf_info_keys_witness :
  exists leaf_dict,
    get_leaf_info (fun _ => 0%Q) (fun f x _ => Ret (col (X f) x))
      square_index [3; 1; 3; 0] 3 2 = Ret leaf_dict /\
    (forall x, is_Some (leaf_dict !! x) <-> x ∈ take (Z.to_nat 3) [3; 1; 3; 0]) /\
    (forall x a, leaf_dict !! x = Some a ->
       descr a = PyArray_FLOAT /\ dimensions a = [Z.to_nat 2]) /\
    (size leaf_dict <= Z.to_nat 3)%nat.
Proof.
  apply (get_leaf_info_keys (fun _ => 0%Q) (fun f x _ => Ret (col (X f) x))
           square_index square_forest [3; 1; 3; 0] 3 2).
  - reflexivity.
  - lia.
  - simpl. lia.
  - intros x _ buf. eexists. reflexivity.
Defined.

(** The dictionary of the ids 3, 1, 3 of the square: two entries, the
    corners (1, 1) and (1, 0). *)
Example get_leaf_info_square :
  get_leaf_info (fun _ => 0%Q) (fun f x _ => Ret (col (X f) x))
    square_index [3; 1; 3; 0] 3 2
  = Ret (<[3 := mkArray PyArray_FLOAT [2%nat] [1; 1]%Q]>
           (<[1 := mkArray PyArray_FLOAT [2%nat] [1; 0]%Q]> ∅)).
Proof. vm_compute. reflexivity. Qed.
